(** * Session synchronisation of the image chat front end

    A shallow embedding of [frontend/src/contexts/ChatContext.tsx]
    (the [ChatProvider]) together with the part of [SocketContext.tsx]
    (the [SocketProvider]) it depends on.

    React state, the [responseTimeoutRef] ref, [localStorage], the window
    timer table and the effects issued to the outside world (socket
    emits, timers, XHR sends) are fields of one explicit [State]; every
    handler of the source is a function [State -> State].  All handlers of
    the source run on one event queue and read React state of the latest
    render, so each one is modelled as an atomic transition.

    JavaScript numbers are IEEE doubles.  The only arithmetic of the
    source is [Math.round((loaded / total) * 100)]; division and
    multiplication round their exact result to the nearest double, and a
    zero [total] gives the two non-finite results. *)

From Stdlib Require Import QArith Qround Qpower Lqa Ascii.
From stdpp Require Import gmap strings list.

Open Scope string_scope.
Open Scope list_scope.
Open Scope Z_scope.

(** ** Data model *)

Module Chat.

(** Modelled from the spec: [types/chat.ts] (the [MessageType] declaration)
    is not among the sources.  The fields are the ones [ChatContext.tsx]
    writes and [Message.tsx] reads: [{ content, sender, timestamp }], with
    [sender] one of ['user'] and ['ai']. *)
Inductive Sender : Type := user | ai.

Record MessageType : Type := mkMessage {
  content : string;
  sender : Sender;
  timestamp : string
}.

(** A JavaScript number, as far as [uploadProgress] needs it. *)
Inductive number : Type :=
| Fin (q : Q)
| NaN
| Infinity.

(** [ProgressEvent]: [loaded] and [total] are [unsigned long long]. *)
Record ProgressEvent : Type := mkProgress {
  lengthComputable : bool;
  loaded : N;
  total : N
}.

(** The JSON body of the [/upload] answer, as far as the [load] handler
    looks into it: [response.success], [response.metadata],
    [response.metadata.file_info.file_path] and [response.error].
    [success] is the truthiness of the field; an absent field is [None]. *)
Record FileInfo : Type := mkFileInfo { file_path : option string }.
Record Metadata : Type := mkMetadata { file_info : option FileInfo }.
Record UploadResponse : Type := mkResponse {
  success : bool;
  metadata : option Metadata;
  error : option string
}.

(** [xhr.responseText], by what the [load] listener can do with it: the
    empty string; text on which the listener throws ([JSON.parse] fails,
    or yields [null]); text that parses to a value whose fields can be
    read (a field that is not there is absent in [UploadResponse]). *)
Inductive ResponseText : Type :=
| EmptyText
| NotJson
| JsonText (response : UploadResponse).

(** What a [throw] inside [uploadImage]'s [try] carries. *)
Inductive Thrown : Type :=
| ErrorObject (message : string)
| OtherValue.

(** Payloads of [socket.emit]. *)
Inductive Payload : Type :=
| MessagePayload (content : string) (image_path : option string)
| AnalyzePayload (image_path : option string)
| EmptyPayload.

(** Effects visible outside the providers, in the order they are issued.
    Of the console only [console.error] is recorded. *)
Inductive Effect : Type :=
| Emit (event : string) (data : Payload)
| SetTimeout (handle : positive) (ms : Z)
| ClearTimeout (handle : positive)
| CreateObjectURL (url : string)
| RevokeObjectURL (url : string)
| XhrSend (url : string) (socket_id : option string)
| ConsoleError
| Uncaught.

(** A socket.io client instance; [sid] is [socket.id]. *)
Record Socket : Type := mkSocket { sid : option string }.

Record State : Type := mkState {
  (* ChatProvider *)
  messages : list MessageType;
  imageUrl : string;
  isProcessing : bool;
  uploadProgress : number;
  responseTimeoutRef : option positive;
  (* SocketProvider *)
  socket : option Socket;
  isConnected : bool;
  (* browser *)
  localStorage : gmap string string;
  timers : gset positive;
  nextTimer : positive;
  objectUrls : list string;
  xhrs : nat;
  VITE_BACKEND_URL : option string;
  effects : list Effect
}.

(** *** Field updates *)

Definition setMessages (f : list MessageType -> list MessageType) (s : State) : State :=
  mkState (f (messages s)) (imageUrl s) (isProcessing s) (uploadProgress s)
    (responseTimeoutRef s) (socket s) (isConnected s) (localStorage s)
    (timers s) (nextTimer s) (objectUrls s) (xhrs s) (VITE_BACKEND_URL s) (effects s).

Definition setImageUrl (u : string) (s : State) : State :=
  mkState (messages s) u (isProcessing s) (uploadProgress s)
    (responseTimeoutRef s) (socket s) (isConnected s) (localStorage s)
    (timers s) (nextTimer s) (objectUrls s) (xhrs s) (VITE_BACKEND_URL s) (effects s).

Definition setIsProcessing (b : bool) (s : State) : State :=
  mkState (messages s) (imageUrl s) b (uploadProgress s)
    (responseTimeoutRef s) (socket s) (isConnected s) (localStorage s)
    (timers s) (nextTimer s) (objectUrls s) (xhrs s) (VITE_BACKEND_URL s) (effects s).

Definition setUploadProgress (p : number) (s : State) : State :=
  mkState (messages s) (imageUrl s) (isProcessing s) p
    (responseTimeoutRef s) (socket s) (isConnected s) (localStorage s)
    (timers s) (nextTimer s) (objectUrls s) (xhrs s) (VITE_BACKEND_URL s) (effects s).

Definition set_responseTimeoutRef (r : option positive) (s : State) : State :=
  mkState (messages s) (imageUrl s) (isProcessing s) (uploadProgress s)
    r (socket s) (isConnected s) (localStorage s)
    (timers s) (nextTimer s) (objectUrls s) (xhrs s) (VITE_BACKEND_URL s) (effects s).

Definition setSocket (k : option Socket) (s : State) : State :=
  mkState (messages s) (imageUrl s) (isProcessing s) (uploadProgress s)
    (responseTimeoutRef s) k (isConnected s) (localStorage s)
    (timers s) (nextTimer s) (objectUrls s) (xhrs s) (VITE_BACKEND_URL s) (effects s).

Definition setIsConnected (b : bool) (s : State) : State :=
  mkState (messages s) (imageUrl s) (isProcessing s) (uploadProgress s)
    (responseTimeoutRef s) (socket s) b (localStorage s)
    (timers s) (nextTimer s) (objectUrls s) (xhrs s) (VITE_BACKEND_URL s) (effects s).

Definition set_localStorage (m : gmap string string) (s : State) : State :=
  mkState (messages s) (imageUrl s) (isProcessing s) (uploadProgress s)
    (responseTimeoutRef s) (socket s) (isConnected s) m
    (timers s) (nextTimer s) (objectUrls s) (xhrs s) (VITE_BACKEND_URL s) (effects s).

Definition set_timers (t : gset positive) (n : positive) (s : State) : State :=
  mkState (messages s) (imageUrl s) (isProcessing s) (uploadProgress s)
    (responseTimeoutRef s) (socket s) (isConnected s) (localStorage s)
    t n (objectUrls s) (xhrs s) (VITE_BACKEND_URL s) (effects s).

Definition set_objectUrls (l : list string) (s : State) : State :=
  mkState (messages s) (imageUrl s) (isProcessing s) (uploadProgress s)
    (responseTimeoutRef s) (socket s) (isConnected s) (localStorage s)
    (timers s) (nextTimer s) l (xhrs s) (VITE_BACKEND_URL s) (effects s).

Definition set_xhrs (n : nat) (s : State) : State :=
  mkState (messages s) (imageUrl s) (isProcessing s) (uploadProgress s)
    (responseTimeoutRef s) (socket s) (isConnected s) (localStorage s)
    (timers s) (nextTimer s) (objectUrls s) n (VITE_BACKEND_URL s) (effects s).

(** Appends one effect to the log. *)
Definition perform (e : Effect) (s : State) : State :=
  mkState (messages s) (imageUrl s) (isProcessing s) (uploadProgress s)
    (responseTimeoutRef s) (socket s) (isConnected s) (localStorage s)
    (timers s) (nextTimer s) (objectUrls s) (xhrs s) (VITE_BACKEND_URL s)
    (effects s ++ [e]).

(** ** Browser primitives *)

(** JavaScript truthiness of a string: only [''] is falsy. *)
Definition truthy (x : string) : bool :=
  match x with
  | EmptyString => false
  | String _ _ => true
  end.

(** [a || b] on strings where [a] may be absent. *)
Definition or_else (a : option string) (b : string) : string :=
  match a with
  | Some x => if truthy x then x else b
  | None => b
  end.

(** [window.setTimeout(cb, ms)]: a fresh positive handle, entered in the
    timer table.  Every timer of this program has the same callback. *)
Definition window_setTimeout (ms : Z) (s : State) : positive * State :=
  let h := nextTimer s in
  (h, perform (SetTimeout h ms) (set_timers (timers s ∪ {[h]}) (Pos.succ h) s)).

(** [clearTimeout(h)]. *)
Definition clearTimeout (h : positive) (s : State) : State :=
  perform (ClearTimeout h) (set_timers (timers s ∖ {[h]}) (nextTimer s) s).

(** *** IEEE 754 binary64 arithmetic

    The operands of this program are byte counts ([unsigned long long],
    so below [2^64]) and their quotient times 100: every value is zero or
    lies in the normal range of a double, where a result is the exact
    result rounded to 53 significant bits, a tie going to the even
    significand. *)

(** The binade of a positive rational: [2^binade q <= q < 2^(binade q + 1)]. *)
Definition binade (q : Q) : Z :=
  let k := (Z.log2 (Qnum q) - Z.log2 (Zpos (Qden q)))%Z in
  if Qle_bool (2 ^ k)%Q q then k else (k - 1)%Z.

(** The nearest integer, a tie going to the even one. *)
Definition round_half_even (r : Q) : Z :=
  let f := Qfloor r in
  match (r - inject_Z f ?= 1 # 2)%Q with
  | Lt => f
  | Gt => (f + 1)%Z
  | Eq => if Z.even f then f else (f + 1)%Z
  end.

(** A positive rational rounded to 53 significant bits. *)
Definition round_significand (q : Q) : Q :=
  let e := (binade q - 52)%Z in
  (inject_Z (round_half_even (q / 2 ^ e)) * 2 ^ e)%Q.

(** The double nearest to a rational. *)
Definition round_double (q : Q) : Q :=
  match Qnum q with
  | Z0 => 0%Q
  | Zpos _ => round_significand q
  | Zneg _ => (- round_significand (- q))%Q
  end.

(** A byte count as a JavaScript number. *)
Definition to_number (n : N) : Q := round_double (inject_Z (Z.of_N n)).

(** [event.loaded / event.total] on unsigned operands. *)
Definition js_div (a b : N) : number :=
  if (b =? 0)%N then (if (a =? 0)%N then NaN else Infinity)
  else Fin (round_double (to_number a / to_number b)%Q).

(** [x * k] for a positive finite [k]. *)
Definition js_mul (x : number) (k : Z) : number :=
  match x with
  | Fin q => Fin (round_double (q * round_double (inject_Z k))%Q)
  | NaN => NaN
  | Infinity => Infinity
  end.

(** [Math.round]: the nearest integer, a tie going up. *)
Definition Math_round (x : number) : number :=
  match x with
  | Fin q => Fin (inject_Z (Qfloor (q + (1 # 2))))
  | NaN => NaN
  | Infinity => Infinity
  end.

(** ** SocketProvider ([SocketContext.tsx]) *)

(** The mount effect: [io(backendUrl, ...)] and [setSocket(socketInstance)].
    The effect has no dependencies, so it runs once. *)
Definition socket_provider_mount (s : State) : State :=
  match socket s with
  | None => setSocket (Some (mkSocket None)) s
  | Some _ => s
  end.

(** [socketInstance.on('connect')]; socket.io gives the instance a fresh
    [id] on every connect. *)
Definition socket_on_connect (id : string) (s : State) : State :=
  setIsConnected true (setSocket (Some (mkSocket (Some id))) s).

(** [socketInstance.on('disconnect')]; socket.io drops the [id]. *)
Definition socket_on_disconnect (s : State) : State :=
  setIsConnected false (setSocket (Some (mkSocket None)) s).

(** [socketInstance.on('connect_error')]: [console.error] and
    [setIsConnected(false)]. *)
Definition socket_on_connect_error (s : State) : State :=
  let s := perform ConsoleError s in
  setIsConnected false s.

(** [sendToSocket]: [socket?.emit(event, data)]. *)
Definition sendToSocket (event : string) (data : Payload) (s : State) : State :=
  match socket s with
  | Some _ => perform (Emit event data) s
  | None => s
  end.

(** ** ChatProvider ([ChatContext.tsx]) *)

Inductive Role : Type := system | assistant.

Record MessageData : Type := mkMessageData {
  role : Role;
  data_content : string
}.

Record MetadataResultData : Type := mkMetadataResult {
  result_metadata : option Metadata;
  analysis : option string;
  original_prompt : option string
}.

Record File : Type := mkFile {
  file_name : string;
  file_size : N;
  file_type : string
}.

Definition addMessage (message : MessageType) (s : State) : State :=
  setMessages (fun prev => prev ++ [message]) s.

(** The block every handler repeats:
    [if (responseTimeoutRef.current) { clearTimeout(...); ... = null }]. *)
Definition cancel_response_timeout (s : State) : State :=
  match responseTimeoutRef s with
  | Some h => set_responseTimeoutRef None (clearTimeout h s)
  | None => s
  end.

(** [socket.on('disconnect')] *)
Definition on_disconnect (s : State) : State :=
  let s := setIsProcessing false s in
  cancel_response_timeout s.

(** [socket.on('message')] *)
Definition on_message (data : MessageData) (now : string) (s : State) : State :=
  let s := setMessages (fun prev => prev ++ [mkMessage (data_content data) ai now]) s in
  let s := setIsProcessing false s in
  cancel_response_timeout s.

(** [socket.on('typing')] *)
Definition on_typing (status : bool) (s : State) : State :=
  setIsProcessing status s.

Definition processed_text : string :=
  "Image processed successfully! I can now answer questions about it.".

(** [socket.on('metadata_result')] *)
Definition on_metadata_result (data : MetadataResultData) (now : string) (s : State) : State :=
  let s :=
    match analysis data with
    | Some a =>
        if truthy a
        then setMessages (fun prev => prev ++ [mkMessage (or_else (Some a) "") ai now]) s
        else setMessages (fun prev => prev ++ [mkMessage processed_text ai now]) s
    | None => setMessages (fun prev => prev ++ [mkMessage processed_text ai now]) s
    end in
  let s := setIsProcessing false s in
  let s := setUploadProgress (Fin 100) s in
  cancel_response_timeout s.

(** [socket.on('error')] *)
Definition on_error (message : string) (now : string) (s : State) : State :=
  let s := setMessages (fun prev => prev ++ [mkMessage ("Error: " +:+ message) ai now]) s in
  let s := setIsProcessing false s in
  cancel_response_timeout s.

Definition disconnected_text : string :=
  "There is a problem processing your request, please try again later".

Definition timeout_text : string := "Server timeout. Please try again.".

(** The callback [sendMessage] hands to [window.setTimeout]. *)
Definition response_timeout_callback (now : string) (s : State) : State :=
  let s := setIsProcessing false s in
  let s := addMessage (mkMessage timeout_text ai now) s in
  set_responseTimeoutRef None s.

Definition current_image_path : string := "current_image_path".

(** [sendMessage(content)]; [now] and [now'] are the two
    [new Date().toISOString()] readings of the call. *)
Definition sendMessage (content : string) (now now' : string) (s : State) : State :=
  if negb (truthy (imageUrl s)) then s
  else
    let userMessage := mkMessage content user now in
    let s := addMessage userMessage s in
    if negb (isConnected s) then
      addMessage (mkMessage disconnected_text ai now') s
    else
      let s := setIsProcessing true s in
      let s := match responseTimeoutRef s with
               | Some h => clearTimeout h s
               | None => s
               end in
      let '(h, s) := window_setTimeout 60000 s in
      let s := set_responseTimeoutRef (Some h) s in
      sendToSocket "message"
        (MessagePayload content (localStorage s !! current_image_path)) s.

Definition no_socket_text : string :=
  "Socket connection not established. Image preview is available, but you cannot communicate with the AI.".

(** The [catch] block of [uploadImage]. *)
Definition uploadImage_catch (e : Thrown) (now : string) (s : State) : State :=
  let s := perform ConsoleError s in
  let s := addMessage
             (mkMessage ("Error uploading image: " +:+
                           match e with
                           | ErrorObject m => m
                           | OtherValue => "Unknown error"
                           end) ai now) s in
  setIsProcessing false s.

(** [URL.createObjectURL(file)]. *)
Definition URL_createObjectURL (url : string) (s : State) : State :=
  perform (CreateObjectURL url) (set_objectUrls (objectUrls s ++ [url]) s).

(** [if (socket && socket.id) formData.append('socket_id', socket.id)]:
    the identifier that travels with the upload, if any. *)
Definition attached_socket_id (s : State) : option string :=
  match socket s with
  | Some k => match sid k with
              | Some i => if truthy i then Some i else None
              | None => None
              end
  | None => None
  end.

(** [import.meta.env.VITE_BACKEND_URL || 'http://localhost:5000'] *)
Definition backendUrl (s : State) : string :=
  or_else (VITE_BACKEND_URL s) "http://localhost:5000".

(** [uploadImage(file)].  [created] is what [URL.createObjectURL(file)]
    does (a thrown value or the new blob URL) and [sent] is what
    [xhr.open]/[xhr.send] do (a thrown value or nothing); the three XHR
    listeners are [xhr_upload_progress], [xhr_load] and [xhr_error]. *)
Definition uploadImage (file : File) (created : Thrown + string)
    (sent : option Thrown) (now : string) (s : State) : State :=
  match created with
  | inl e => uploadImage_catch e now s
  | inr objectUrl =>
      let s := URL_createObjectURL objectUrl s in
      let s := setImageUrl objectUrl s in
      let s := setUploadProgress (Fin 0) s in
      if negb (isConnected s) then
        addMessage (mkMessage no_socket_text ai now) s
      else
        let socket_id := attached_socket_id s in
        let s := setIsProcessing true s in
        match sent with
        | Some e => uploadImage_catch e now s
        | None =>
            set_xhrs (S (xhrs s))
              (perform (XhrSend (backendUrl s +:+ "/upload") socket_id) s)
        end
  end.

(** [xhr.upload.addEventListener('progress', ...)] *)
Definition xhr_upload_progress (event : ProgressEvent) (s : State) : State :=
  if lengthComputable event then
    let progress := Math_round (js_mul (js_div (loaded event) (total event)) 100) in
    setUploadProgress progress s
  else s.

(** The two statements of the HTTP-error branch of the [load] listener. *)
Definition upload_failed (errorMsg : string) (now : string) (s : State) : State :=
  let s := addMessage (mkMessage ("Error uploading image: " +:+ errorMsg) ai now) s in
  setIsProcessing false s.

(** [xhr.addEventListener('load', ...)].  An exception thrown inside a
    listener ([JSON.parse] on text that is no JSON, a property of
    [undefined]) ends the listener where it is; it is logged as
    [Uncaught]. *)
Definition xhr_load (status : Z) (responseText : ResponseText) (now : string)
    (s : State) : State :=
  if (200 <=? status) && (status <? 300) then
    match responseText with
    | JsonText response =>
        match (if success response then metadata response else None) with
        | Some md =>
            match file_info md with
            | Some fi => sendToSocket "analyze_image" (AnalyzePayload (file_path fi)) s
            | None => perform Uncaught s
            end
        | None => s
        end
    | EmptyText | NotJson => perform Uncaught s
    end
  else
    match responseText with
    | EmptyText => upload_failed "Upload failed" now s
    | NotJson => perform Uncaught s
    | JsonText response => upload_failed (or_else (error response) "Upload failed") now s
    end.

(** [xhr.addEventListener('error', ...)] *)
Definition xhr_error (now : string) (s : State) : State :=
  let s := addMessage (mkMessage "Error uploading image. Please try again later." ai now) s in
  setIsProcessing false s.

(** [clearImage()] *)
Definition clearImage (s : State) : State :=
  let s := setImageUrl "" s in
  let s := set_localStorage (delete current_image_path (localStorage s)) s in
  let s := if isConnected s then sendToSocket "clear_image" EmptyPayload s else s in
  setMessages (fun _ => []) s.

(** ** The event loop *)

Inductive Event : Type :=
| Mount
| Connect (id : string)
| Disconnect
| ConnectError
| ServerMessage (data : MessageData) (now : string)
| Typing (status : bool)
| MetadataResult (data : MetadataResultData) (now : string)
| ServerError (message : string) (now : string)
| Ask (content : string) (now now' : string)
| Upload (file : File) (created : Thrown + string) (sent : option Thrown) (now : string)
| Clear
| XhrProgress (event : ProgressEvent)
| XhrLoad (status : Z) (responseText : ResponseText) (now : string)
| XhrFailed (now : string)
| TimerElapsed (handle : positive) (now : string).

(** The listeners of the [useEffect] of [ChatProvider] exist only once
    [socket] is set ([if (!socket) return]). *)
Definition subscribed (k : State -> State) (s : State) : State :=
  match socket s with
  | Some _ => k s
  | None => s
  end.

(** An XHR listener runs only for a request that is in flight. *)
Definition in_flight (k : State -> State) (s : State) : State :=
  match xhrs s with
  | O => s
  | S _ => k s
  end.

(** A terminal XHR event ends its request. *)
Definition finish_xhr (s : State) : State := set_xhrs (Nat.pred (xhrs s)) s.

(** A timer runs its callback once, if it has not been cleared. *)
Definition fire_timer (h : positive) (now : string) (s : State) : State :=
  if decide (h ∈ timers s)
  then response_timeout_callback now (set_timers (timers s ∖ {[h]}) (nextTimer s) s)
  else s.

Definition step (e : Event) (s : State) : State :=
  match e with
  | Mount => socket_provider_mount s
  | Connect id => subscribed (socket_on_connect id) s
  | Disconnect => subscribed (fun s => on_disconnect (socket_on_disconnect s)) s
  | ConnectError => subscribed socket_on_connect_error s
  | ServerMessage data now => subscribed (on_message data now) s
  | Typing status => subscribed (on_typing status) s
  | MetadataResult data now => subscribed (on_metadata_result data now) s
  | ServerError message now => subscribed (on_error message now) s
  | Ask content now now' => sendMessage content now now' s
  | Upload file created sent now => uploadImage file created sent now s
  | Clear => clearImage s
  | XhrProgress event => in_flight (xhr_upload_progress event) s
  | XhrLoad status text now => in_flight (fun s => xhr_load status text now (finish_xhr s)) s
  | XhrFailed now => in_flight (fun s => xhr_error now (finish_xhr s)) s
  | TimerElapsed h now => fire_timer h now s
  end.

Definition run (es : list Event) (s : State) : State :=
  fold_left (fun s e => step e s) es s.

(** The state at application load.  [localStorage] outlives a page load,
    so its content is whatever an earlier load left; the backend address
    is fixed at build time. *)
Definition initial (store : gmap string string) (backend : option string) : State :=
  mkState [] "" false (Fin 0) None None false store ∅ 1%positive [] 0 backend [].

Definition reachable (s : State) : Prop :=
  exists store backend es, run es (initial store backend) = s.

End Chat.

Import Chat.

(** ** Static validation ([utils/imageUtils.ts]) *)

Module ImageUtils.

(** [isValidImageSize(file, maxSizeInMB = 5)].  The limit is a number of
    megabytes, not necessarily whole; multiplying by 1024 is exact. *)
Definition isValidImageSize (file : File) (maxSizeInMB : option Q) : bool :=
  let maxSizeInMB := match maxSizeInMB with Some m => m | None => 5%Q end in
  let maxSizeInBytes := (maxSizeInMB * 1024 * 1024)%Q in
  Qle_bool (inject_Z (Z.of_N (file_size file))) maxSizeInBytes.

(** The class [[^/.]] of the pattern. *)
Definition extension_char (c : Ascii.ascii) : bool :=
  negb (Ascii.eqb c "/"%char) && negb (Ascii.eqb c "."%char).

(** [[^/.]+$] on a whole string. *)
Fixpoint extension_body (s : string) : bool :=
  match s with
  | EmptyString => false
  | String c EmptyString => extension_char c
  | String c r => extension_char c && extension_body r
  end.

(** The pattern [/\.[^/.]+$/] matching from the first character of [s] to
    its end. *)
Definition extension_at (s : string) : bool :=
  match s with
  | String c r => Ascii.eqb c "."%char && extension_body r
  | EmptyString => false
  end.

(** [getFilenameWithoutExtension(filename)]:
    [filename.replace(/\.[^/.]+$/, '')], the leftmost match removed.  The
    pattern singles out only the characters [.] and [/], so it does not
    matter that the string is kept here as bytes. *)
Fixpoint getFilenameWithoutExtension (filename : string) : string :=
  if extension_at filename then EmptyString
  else match filename with
       | EmptyString => EmptyString
       | String c r => String c (getFilenameWithoutExtension r)
       end.

End ImageUtils.

(** ** The question form ([components/Chat/MessageInput.tsx]) *)

Module MessageInput.

Section WithTrim.

(** [String.prototype.trim], a built-in the form relies on. *)
Variable trim : string -> string.

(** [handleSubmit]: the new value of the [input] state and the session.
    [now] and [now'] are the clock readings [sendMessage] makes. *)
Definition handleSubmit (input : string) (now now' : string) (s : State)
    : string * State :=
  if truthy (trim input) && negb (isProcessing s)
  then ("", sendMessage input now now' s)
  else (input, s).

(** The [disabled] attribute of the text field. *)
Definition input_disabled (s : State) : bool :=
  negb (truthy (imageUrl s)) || isProcessing s.

(** The [disabled] attribute of the send button. *)
Definition button_disabled (input : string) (s : State) : bool :=
  negb (truthy (trim input)) || negb (truthy (imageUrl s)) || isProcessing s.

End WithTrim.

End MessageInput.

(** ** Notions the statements use *)

(** [isConnected] is set only by a listener of an existing socket; the
    window holds no timer but the one [responseTimeoutRef] names; and
    before the socket exists nothing can take the lock. *)
Record wf (s : State) : Prop := mk_wf {
  wf_connected : isConnected s = true -> is_Some (socket s);
  wf_timers :
    timers s = match responseTimeoutRef s with
               | Some h => {[h]}
               | None => ∅
               end;
  wf_idle : socket s = None -> isProcessing s = false /\ responseTimeoutRef s = None
}.

(** The inbound events that end a request. *)
Definition terminal (e : Event) : bool :=
  match e with
  | ServerMessage _ _ | MetadataResult _ _ | ServerError _ _ | Disconnect => true
  | _ => false
  end.

(** The session fields [clearImage] can be asked about. *)
Definition session (s : State) :=
  (messages s, imageUrl s, isProcessing s, uploadProgress s,
   responseTimeoutRef s, localStorage s, timers s, objectUrls s).

(** [lo <= x <= hi], forced. *)
Definition clamp (lo hi x : Z) : Z := Z.max lo (Z.min hi x).

(** Order on the finite numbers. *)
Definition number_le (a b : number) : Prop :=
  match a, b with
  | Fin x, Fin y => (x <= y)%Q
  | _, _ => False
  end.


(** Every live timer was handed out before [nextTimer]. *)
Definition fresh_handles (s : State) : Prop :=
  forall h, h ∈ timers s -> (h < nextTimer s)%positive.

(** [window.setTimeout] calls in an effect log. *)
Definition is_arm (e : Effect) : bool :=
  match e with
  | SetTimeout _ _ => true
  | _ => false
  end.

(** [message] emits in an effect log. *)
Definition is_question (e : Effect) : bool :=
  match e with
  | Emit ev (MessagePayload _ _) => String.eqb ev "message"
  | _ => false
  end.

Definition count_effects (p : Effect -> bool) (l : list Effect) : nat :=
  length (List.filter p l).

(** The events of the user interface. *)
Definition is_upload (e : Event) : bool :=
  match e with
  | Upload _ _ _ _ => true
  | _ => false
  end.

(** [URL.createObjectURL] calls in an effect log. *)
Definition is_create (e : Effect) : bool :=
  match e with
  | CreateObjectURL _ => true
  | _ => false
  end.

(** [URL.revokeObjectURL] calls in an effect log. *)
Definition is_revoke (e : Effect) : bool :=
  match e with
  | RevokeObjectURL _ => true
  | _ => false
  end.

(** The text an HTTP-error answer puts after [Error uploading image: ]. *)
Definition failure_text (responseText : ResponseText) : string :=
  match responseText with
  | JsonText r => match error r with
                  | Some e => if truthy e then e else "Upload failed"
                  | None => "Upload failed"
                  end
  | EmptyText | NotJson => "Upload failed"
  end.


(** The integer [Math.round((loaded / total) * 100)] stores for a
    non-zero [total]. *)
Definition stored_percent (l t : N) : Z :=
  Qfloor (round_double (round_double (to_number l / to_number t)
                        * round_double (inject_Z 100)) + (1 # 2))%Q.

(** ** Concrete sessions *)

Module Scenario.

Definition photo : File := mkFile "x.jpg" 2000000 "image/jpeg".

Definition accepted (path : string) : ResponseText :=
  JsonText (mkResponse true (Some (mkMetadata (Some (mkFileInfo (Some path))))) None).

Definition rejected : ResponseText :=
  JsonText (mkResponse false None (Some "Unsupported image")).

Definition fresh : State := initial ∅ None.

(** The page is loaded and an image is chosen before the socket connects. *)
Definition offline : list Event :=
  [Mount; Upload photo (inr "blob:1") None "09:00:00"].

(** The socket connects and the image starts uploading. *)
Definition uploading : list Event :=
  [Mount; Connect "sid1"; Upload photo (inr "blob:1") None "09:00:00";
   XhrProgress (mkProgress true 0 2000000);
   XhrProgress (mkProgress true 1000000 2000000);
   XhrProgress (mkProgress true 2000000 2000000)].

(** The upload is accepted and the analysis comes back. *)
Definition analysed : list Event :=
  uploading ++
  [XhrLoad 200 (accepted "/tmp/x.jpg") "09:00:01";
   MetadataResult (mkMetadataResult None (Some "A cat on a sofa.") None) "09:00:05"].

(** A question is asked and is waiting for its answer. *)
Definition asked : list Event :=
  analysed ++ [Ask "what is this?" "09:01:00" "09:01:00"].

End Scenario.

(** Case analysis of one step of the event loop: the handler of the
    event is unfolded and every branch it takes is split off. *)
Ltac open_step :=
  simpl;
  unfold subscribed, in_flight, finish_xhr, socket_provider_mount,
    socket_on_connect, socket_on_disconnect, socket_on_connect_error,
    on_disconnect, on_message, on_typing, on_metadata_result, on_error,
    cancel_response_timeout, sendMessage, uploadImage, uploadImage_catch,
    xhr_upload_progress, xhr_load, upload_failed, xhr_error, clearImage,
    fire_timer, response_timeout_callback, sendToSocket, addMessage,
    window_setTimeout, clearTimeout, URL_createObjectURL;
  cbv zeta; simpl;
  repeat match goal with
         | |- context [match ?x with _ => _ end] => destruct x eqn:?; simpl
         end.

(** ** Invariants of the reachable states *)

Section Invariants.

Lemma wf_initial store backend : wf (initial store backend).
Proof. split; simpl; [discriminate | reflexivity | auto]. Qed.

(** A transition that keeps the socket, the timers and the handle, and
    takes the lock only where a socket exists, keeps [wf]. *)
Lemma wf_frame s s' :
  socket s' = socket s -> isConnected s' = isConnected s ->
  timers s' = timers s -> responseTimeoutRef s' = responseTimeoutRef s ->
  (socket s = None -> isProcessing s' = isProcessing s \/ isProcessing s' = false) ->
  wf s -> wf s'.
Proof.
  intros Hk Hc Ht Hr Hl [W1 W2 W3]. split.
  - rewrite Hc, Hk. exact W1.
  - rewrite Ht, Hr. exact W2.
  - rewrite Hk, Hr. intros Hn. destruct (W3 Hn) as [Hp Hq]. split; [|exact Hq].
    destruct (Hl Hn) as [-> | ->]; [exact Hp | reflexivity].
Qed.

(** A transition that ends with the lock released and no timer. *)
Lemma wf_released s s' :
  socket s' = socket s -> isConnected s' = isConnected s ->
  timers s' = ∅ -> responseTimeoutRef s' = None -> isProcessing s' = false ->
  wf s -> wf s'.
Proof.
  intros Hk Hc Ht Hr Hl [W1 W2 W3]. split.
  - rewrite Hc, Hk. exact W1.
  - rewrite Ht, Hr. reflexivity.
  - auto.
Qed.

Lemma cancel_response_timeout_spec s :
  wf s ->
  let s' := cancel_response_timeout s in
  timers s' = ∅ /\ responseTimeoutRef s' = None /\
  isProcessing s' = isProcessing s /\ socket s' = socket s /\
  isConnected s' = isConnected s /\ messages s' = messages s.
Proof.
  intros [_ W2 _]. unfold cancel_response_timeout.
  destruct (responseTimeoutRef s) as [h|] eqn:E; simpl.
  - rewrite W2. repeat split. apply difference_diag_L.
  - rewrite W2, E. repeat split.
Qed.

Lemma wf_on_disconnect s : wf s -> wf (on_disconnect s).
Proof.
  intros W. unfold on_disconnect.
  assert (W' : wf (setIsProcessing false s)) by (apply (wf_frame s); auto).
  destruct (cancel_response_timeout_spec _ W') as (?&?&?&?&?&?).
  apply (wf_released s); auto.
Qed.

Lemma wf_on_message data now s : wf s -> wf (on_message data now s).
Proof.
  intros W. unfold on_message.
  set (s1 := setIsProcessing false _).
  assert (W' : wf s1) by (apply (wf_frame s); auto).
  destruct (cancel_response_timeout_spec _ W') as (?&?&?&?&?&?).
  apply (wf_released s); auto.
Qed.

Lemma wf_on_metadata_result data now s : wf s -> wf (on_metadata_result data now s).
Proof.
  intros W. unfold on_metadata_result. cbv zeta.
  set (s0 := match analysis data with Some _ => _ | None => _ end).
  assert (E : socket s0 = socket s /\ isConnected s0 = isConnected s /\
              timers s0 = timers s /\ responseTimeoutRef s0 = responseTimeoutRef s).
  { subst s0. destruct (analysis data) as [a|]; [destruct (truthy a)|]; simpl; auto. }
  destruct E as (E1 & E2 & E3 & E4).
  set (s1 := setUploadProgress _ _).
  assert (W' : wf s1) by (apply (wf_frame s); simpl; auto).
  destruct (cancel_response_timeout_spec _ W') as (?&?&?&?&?&?).
  apply (wf_released s); auto; [rewrite H2 | rewrite H3]; simpl; assumption.
Qed.

Lemma wf_on_error message now s : wf s -> wf (on_error message now s).
Proof.
  intros W. unfold on_error.
  set (s1 := setIsProcessing false _).
  assert (W' : wf s1) by (apply (wf_frame s); auto).
  destruct (cancel_response_timeout_spec _ W') as (?&?&?&?&?&?).
  apply (wf_released s); auto.
Qed.

Lemma wf_sendMessage content now now' s : wf s -> wf (sendMessage content now now' s).
Proof.
  intros W. unfold sendMessage.
  destruct (truthy (imageUrl s)); simpl; [|exact W].
  destruct (isConnected s) eqn:Ec; simpl.
  - destruct (wf_connected _ W Ec) as [k Ek]. destruct W as [W1 W2 W3].
    unfold sendToSocket.
    destruct (responseTimeoutRef s) as [h|] eqn:Er; simpl; rewrite Ek; simpl;
      (split; simpl; [rewrite Ek; eauto | rewrite W2 | rewrite Ek; discriminate]).
    + rewrite difference_diag_L. apply (left_id_L ∅ (∪)).
    + apply (left_id_L ∅ (∪)).
  - apply (wf_frame s); auto.
Qed.

Lemma wf_uploadImage file created sent now s :
  wf s -> wf (uploadImage file created sent now s).
Proof.
  intros W. unfold uploadImage, uploadImage_catch.
  destruct created as [e|url]; simpl.
  - apply (wf_frame s); auto.
  - destruct (isConnected s) eqn:Ec; simpl.
    + destruct (wf_connected _ W Ec) as [k Ek].
      destruct sent; apply (wf_frame s); auto; simpl; rewrite Ek; discriminate.
    + apply (wf_frame s); auto.
Qed.

Lemma wf_clearImage s : wf s -> wf (clearImage s).
Proof.
  intros W. unfold clearImage, sendToSocket. simpl.
  destruct (isConnected s); [destruct (socket s) eqn:Ek|]; simpl;
    apply (wf_frame s); auto.
Qed.

Lemma wf_xhr_upload_progress event s : wf s -> wf (xhr_upload_progress event s).
Proof.
  intros W. unfold xhr_upload_progress.
  destruct (lengthComputable event); [apply (wf_frame s); auto | exact W].
Qed.

Lemma wf_xhr_load status text now s : wf s -> wf (xhr_load status text now s).
Proof.
  intros W. unfold xhr_load, upload_failed, sendToSocket.
  destruct ((200 <=? status) && (status <? 300)).
  - destruct text as [| |r]; try (apply (wf_frame s); auto; fail).
    destruct (if success r then metadata r else None) as [md|]; [|exact W].
    destruct (file_info md); [destruct (socket s) eqn:Ek|];
      try exact W; apply (wf_frame s); auto.
  - destruct text; apply (wf_frame s); auto.
Qed.

Lemma wf_xhr_error now s : wf s -> wf (xhr_error now s).
Proof. intros W. apply (wf_frame s); auto. Qed.

Lemma wf_fire_timer h now s : wf s -> wf (fire_timer h now s).
Proof.
  intros W. unfold fire_timer. destruct (decide (h ∈ timers s)) as [Hin|]; [|exact W].
  apply (wf_released s); auto. simpl.
  destruct W as [_ W2 _]. rewrite W2 in Hin |- *.
  destruct (responseTimeoutRef s) as [h'|].
  - apply elem_of_singleton in Hin. subst. apply difference_diag_L.
  - exfalso. exact (not_elem_of_empty (C:=gset positive) h Hin).
Qed.

Lemma wf_step e s : wf s -> wf (step e s).
Proof.
  intros W. destruct e; simpl; unfold subscribed, in_flight.
  - unfold socket_provider_mount. destruct (socket s) eqn:Ek; [exact W|].
    destruct W as [W1 W2 W3]. destruct (W3 Ek) as [Hp Hr].
    split; simpl; [eauto | exact W2 | discriminate].
  - destruct (socket s) eqn:Ek; [|exact W]. destruct W as [W1 W2 W3].
    split; simpl; [eauto | exact W2 | discriminate].
  - destruct (socket s) eqn:Ek; [|exact W]. apply wf_on_disconnect.
    destruct W as [W1 W2 W3]. split; simpl; [discriminate | exact W2 | discriminate].
  - destruct (socket s) eqn:Ek; [|exact W]. destruct W as [W1 W2 W3].
    split; simpl; [discriminate | exact W2 | exact W3].
  - destruct (socket s); [apply wf_on_message|]; exact W.
  - destruct (socket s) eqn:Ek; [|exact W]. apply (wf_frame s); auto.
    simpl. rewrite Ek. discriminate.
  - destruct (socket s); [apply wf_on_metadata_result|]; exact W.
  - destruct (socket s); [apply wf_on_error|]; exact W.
  - apply wf_sendMessage, W.
  - apply wf_uploadImage, W.
  - apply wf_clearImage, W.
  - destruct (xhrs s); [|apply wf_xhr_upload_progress]; exact W.
  - destruct (xhrs s) eqn:Ex; [exact W|]. apply wf_xhr_load.
    apply (wf_frame s); auto.
  - destruct (xhrs s) eqn:Ex; [exact W|]. apply wf_xhr_error.
    apply (wf_frame s); auto.
  - apply wf_fire_timer, W.
Qed.

Lemma wf_run es : forall s, wf s -> wf (run es s).
Proof.
  unfold run. induction es as [|e es IH]; intros s W; simpl; [exact W|].
  apply IH, wf_step, W.
Qed.

Lemma reachable_wf s : reachable s -> wf s.
Proof. intros (store & backend & es & <-). apply wf_run, wf_initial. Qed.

Lemma reachable_step e s : reachable s -> reachable (step e s).
Proof.
  intros (store & backend & es & <-). exists store, backend, (es ++ [e]).
  unfold run. rewrite fold_left_app. reflexivity.
Qed.

Lemma reachable_run es : reachable (run es Scenario.fresh).
Proof. exists ∅, None, es. reflexivity. Qed.

End Invariants.

(** ** The inbound reactor *)

Section Reactor.

Variable s : State.

(** C10: an inbound [message] event appends exactly one message whose
    sender is ['ai'] and whose content is the event's content; the [role]
    field of the event has no influence on the resulting state. *)
Theorem on_message_ignores_role (r1 r2 : Role) (c now : string) :
  messages (on_message (mkMessageData r1 c) now s) = messages s ++ [mkMessage c ai now]
  /\ on_message (mkMessageData r1 c) now s = on_message (mkMessageData r2 c) now s
  /\ step (ServerMessage (mkMessageData r1 c) now) s
     = step (ServerMessage (mkMessageData r2 c) now) s.
Proof.
  split; [|split].
  - unfold on_message, cancel_response_timeout. cbv zeta.
    destruct (responseTimeoutRef _); reflexivity.
  - reflexivity.
  - reflexivity.
Qed.

(** C9: the [disconnect] listener of the reactor releases the lock and
    cancels the pending timeout (the handle is cleared, its timer is
    removed from the timer table by one [clearTimeout]); the conversation
    history, the image reference, the upload progress and every other
    field stay as they were. *)
Theorem on_disconnect_frame :
  let s' := on_disconnect s in
  isProcessing s' = false
  /\ responseTimeoutRef s' = None
  /\ timers s' = match responseTimeoutRef s with
                 | Some h => timers s ∖ {[h]}
                 | None => timers s
                 end
  /\ effects s' = match responseTimeoutRef s with
                  | Some h => effects s ++ [ClearTimeout h]
                  | None => effects s
                  end
  /\ messages s' = messages s
  /\ imageUrl s' = imageUrl s
  /\ uploadProgress s' = uploadProgress s
  /\ localStorage s' = localStorage s
  /\ objectUrls s' = objectUrls s
  /\ socket s' = socket s
  /\ isConnected s' = isConnected s
  /\ xhrs s' = xhrs s
  /\ nextTimer s' = nextTimer s
  /\ messages (step Disconnect s) = messages s
  /\ imageUrl (step Disconnect s) = imageUrl s
  /\ uploadProgress (step Disconnect s) = uploadProgress s.
Proof.
  unfold step, subscribed, on_disconnect, cancel_response_timeout. cbv zeta. simpl.
  destruct (responseTimeoutRef s) eqn:E; destruct (socket s) eqn:Ek; simpl;
    rewrite ?E; simpl; repeat split; assumption.
Qed.

End Reactor.

(** ** Asking a question *)

Section Ask.

Variables (content now now' : string).

(** C4: [sendMessage] called while disconnected, with an image present,
    appends exactly the user's message and then one assistant error
    message; no timer is armed (handle, timer table and effect log are
    untouched) and the lock keeps its value, so it stays false. *)
Theorem sendMessage_disconnected (s : State) :
  imageUrl s <> "" -> isConnected s = false ->
  let s' := sendMessage content now now' s in
  messages s' = messages s ++ [mkMessage content user now;
                               mkMessage disconnected_text ai now']
  /\ responseTimeoutRef s' = responseTimeoutRef s
  /\ timers s' = timers s
  /\ effects s' = effects s
  /\ isProcessing s' = isProcessing s
  /\ (isProcessing s = false -> isProcessing s' = false).
Proof.
  intros Hu Hc. unfold sendMessage.
  destruct (imageUrl s) eqn:Eu; [congruence|]. simpl. rewrite Hc. simpl.
  rewrite <- app_assoc. repeat split. auto.
Qed.

End Ask.

Lemma sendMessage_disconnected_witness :
  let s := run Scenario.offline Scenario.fresh in
  let s' := sendMessage "what is this?" "09:01:00" "09:01:01" s in
  messages s' = messages s ++ [mkMessage "what is this?" user "09:01:00";
                               mkMessage disconnected_text ai "09:01:01"]
  /\ responseTimeoutRef s' = responseTimeoutRef s
  /\ timers s' = timers s
  /\ effects s' = effects s
  /\ isProcessing s' = isProcessing s
  /\ (isProcessing s = false -> isProcessing s' = false).
Proof.
  intros s s'.
  apply (sendMessage_disconnected "what is this?" "09:01:00" "09:01:01" s).
  - vm_compute. discriminate.
  - vm_compute. reflexivity.
Defined.

(** ** A question and its timer *)

Section AskConnected.

Variables (content now now' : string).

(** What a connected [sendMessage] does, field by field. *)
Lemma sendMessage_connected (s : State) :
  wf s -> imageUrl s <> "" -> isConnected s = true ->
  let s1 := sendMessage content now now' s in
  messages s1 = messages s ++ [mkMessage content user now]
  /\ isProcessing s1 = true
  /\ responseTimeoutRef s1 = Some (nextTimer s)
  /\ timers s1 = {[nextTimer s]}
  /\ effects s1 = effects s
                  ++ match responseTimeoutRef s with
                     | Some h => [ClearTimeout h]
                     | None => []
                     end
                  ++ [SetTimeout (nextTimer s) 60000;
                      Emit "message"
                        (MessagePayload content (localStorage s !! current_image_path))]
  /\ socket s1 = socket s
  /\ isConnected s1 = isConnected s.
Proof.
  intros [W1 W2 W3] Hu Hc. destruct (W1 Hc) as [k Hk].
  unfold sendMessage, sendToSocket.
  destruct (imageUrl s) eqn:Eu; [congruence|]. simpl. rewrite Hc. simpl.
  destruct (responseTimeoutRef s) as [h|] eqn:Er; simpl; rewrite Hk; simpl;
    rewrite W2; repeat split; try assumption.
  - rewrite difference_diag_L. apply (left_id_L ∅ (∪)).
  - rewrite <- !app_assoc. reflexivity.
  - apply (left_id_L ∅ (∪)).
  - rewrite <- !app_assoc. reflexivity.
Qed.

(** The only live timer fires. *)
Lemma fire_timer_live (h : positive) (t : string) (s : State) :
  timers s = {[h]} ->
  let s2 := fire_timer h t s in
  messages s2 = messages s ++ [mkMessage timeout_text ai t]
  /\ isProcessing s2 = false
  /\ responseTimeoutRef s2 = None
  /\ timers s2 = ∅
  /\ effects s2 = effects s
  /\ socket s2 = socket s.
Proof.
  intros Ht. unfold fire_timer.
  rewrite decide_True by (rewrite Ht; apply elem_of_singleton; reflexivity).
  simpl. rewrite Ht. repeat split. apply difference_diag_L.
Qed.

(** C5: after a connected [sendMessage], if its timer fires before any
    terminal event, exactly one timeout message is appended (the timer
    cannot fire again), the lock is released and the handle is cleared; a
    [message] event that arrives
    afterwards still appends its content as one more assistant message and
    issues no [clearTimeout] (the effect log and the timer table do not
    change). *)
Theorem response_timeout_then_late_message
    (s : State) (t : string) (data : MessageData) (t' : string) :
  reachable s -> imageUrl s <> "" -> isConnected s = true ->
  let s1 := step (Ask content now now') s in
  let s2 := step (TimerElapsed (nextTimer s) t) s1 in
  let s3 := step (ServerMessage data t') s2 in
  (messages s1 = messages s ++ [mkMessage content user now]
   /\ isProcessing s1 = true
   /\ responseTimeoutRef s1 = Some (nextTimer s)
   /\ In (SetTimeout (nextTimer s) 60000) (effects s1))
  /\ (messages s2 = messages s1 ++ [mkMessage timeout_text ai t]
      /\ isProcessing s2 = false
      /\ responseTimeoutRef s2 = None
      /\ timers s2 = ∅
      /\ step (TimerElapsed (nextTimer s) t) s2 = s2)
  /\ (messages s3 = messages s2 ++ [mkMessage (data_content data) ai t']
      /\ isProcessing s3 = false
      /\ responseTimeoutRef s3 = None
      /\ effects s3 = effects s2
      /\ timers s3 = timers s2).
Proof.
  intros Hr Hu Hc. pose proof (reachable_wf _ Hr) as W.
  destruct (wf_connected _ W Hc) as [k Hk].
  destruct (sendMessage_connected s W Hu Hc) as (M1 & L1 & R1 & T1 & E1 & K1 & _).
  cbv zeta. change (step (Ask content now now') s) with (sendMessage content now now' s).
  set (s1 := sendMessage content now now' s) in *.
  change (step (TimerElapsed (nextTimer s) t) s1) with (fire_timer (nextTimer s) t s1).
  destruct (fire_timer_live (nextTimer s) t s1 T1) as (M2 & L2 & R2 & T2 & E2 & K2).
  set (s2 := fire_timer (nextTimer s) t s1) in *.
  assert (S3 : step (ServerMessage data t') s2 = on_message data t' s2).
  { unfold step, subscribed. rewrite K2, K1, Hk. reflexivity. }
  assert (S2 : step (TimerElapsed (nextTimer s) t) s2 = s2).
  { simpl. unfold fire_timer. rewrite T2.
    rewrite decide_False by apply not_elem_of_empty. reflexivity. }
  rewrite S3. unfold on_message, cancel_response_timeout. cbv zeta. simpl.
  rewrite R2. simpl.
  repeat split; auto.
  rewrite E1. apply in_or_app. right. apply in_or_app. right. left. reflexivity.
Qed.

End AskConnected.

Lemma response_timeout_then_late_message_witness :
  let s := run Scenario.analysed Scenario.fresh in
  let s1 := step (Ask "describe colors" "09:01:00" "09:01:00") s in
  let s2 := step (TimerElapsed (nextTimer s) "09:02:00") s1 in
  let s3 := step (ServerMessage (mkMessageData assistant "Mostly grey.") "09:02:30") s2 in
  (messages s1 = messages s ++ [mkMessage "describe colors" user "09:01:00"]
   /\ isProcessing s1 = true
   /\ responseTimeoutRef s1 = Some (nextTimer s)
   /\ In (SetTimeout (nextTimer s) 60000) (effects s1))
  /\ (messages s2 = messages s1 ++ [mkMessage timeout_text ai "09:02:00"]
      /\ isProcessing s2 = false
      /\ responseTimeoutRef s2 = None
      /\ timers s2 = ∅
      /\ step (TimerElapsed (nextTimer s) "09:02:00") s2 = s2)
  /\ (messages s3 = messages s2 ++ [mkMessage "Mostly grey." ai "09:02:30"]
      /\ isProcessing s3 = false
      /\ responseTimeoutRef s3 = None
      /\ effects s3 = effects s2
      /\ timers s3 = timers s2).
Proof.
  intros s.
  apply (response_timeout_then_late_message
           "describe colors" "09:01:00" "09:01:00" s "09:02:00"
           (mkMessageData assistant "Mostly grey.") "09:02:30").
  - apply reachable_run.
  - vm_compute. discriminate.
  - vm_compute. reflexivity.
Defined.

(** ** Uploading an image *)

Section Upload.



(** What a connected [uploadImage] does when nothing throws. *)
Lemma uploadImage_connected (file : File) (url now : string) (s : State) :
  isConnected s = true ->
  let s1 := uploadImage file (inr url) None now s in
  messages s1 = messages s /\ isProcessing s1 = true /\ imageUrl s1 = url
  /\ uploadProgress s1 = Fin 0
  /\ effects s1 = effects s ++ [CreateObjectURL url;
                                XhrSend (backendUrl s +:+ "/upload") (attached_socket_id s)]
  /\ socket s1 = socket s /\ xhrs s1 = S (xhrs s)
  /\ responseTimeoutRef s1 = responseTimeoutRef s /\ timers s1 = timers s.
Proof.
  intros Hc. unfold uploadImage, URL_createObjectURL. simpl. rewrite Hc. simpl.
  repeat split. rewrite <- app_assoc. reflexivity.
Qed.




End Upload.



(** ** Clearing the image *)

Section Clear.

(** C6, as the code has it: [clearImage], connected or not, empties the
    image reference, the stored image path and the conversation history,
    and emits [clear_image] exactly when connected; a second call changes
    no session field.  The lock, the timer handle, the timer table and the
    preview object URLs are left as they are. *)
Theorem clearImage_effect (s : State) :
  let s' := clearImage s in
  imageUrl s' = ""
  /\ messages s' = []
  /\ localStorage s' !! current_image_path = None
  /\ effects s' = effects s ++ (if isConnected s
                                then match socket s with
                                     | Some _ => [Emit "clear_image" EmptyPayload]
                                     | None => []
                                     end
                                else [])
  /\ session (clearImage s') = session s'
  /\ isProcessing s' = isProcessing s
  /\ responseTimeoutRef s' = responseTimeoutRef s
  /\ timers s' = timers s
  /\ objectUrls s' = objectUrls s.
Proof.
  unfold clearImage, sendToSocket, session. cbv zeta. simpl.
  destruct (isConnected s) eqn:Ec; [destruct (socket s) eqn:Ek|]; simpl;
    rewrite ?Ec, ?Ek; simpl;
    rewrite ?app_nil_r, ?lookup_delete_eq, ?delete_delete_eq; repeat split.
Qed.

End Clear.

(** C6, refuted as stated: with a question pending, [clearImage] leaves
    the lock held, the timer armed and live, and the preview URL
    unrevoked. *)
Lemma clearImage_keeps_lock_and_timer :
  let s := run Scenario.asked Scenario.fresh in
  let s' := clearImage s in
  isProcessing s' = true
  /\ responseTimeoutRef s' = Some 1%positive
  /\ timers s' = {[1%positive]}
  /\ objectUrls s' = ["blob:1"]
  /\ ~ In (RevokeObjectURL "blob:1") (effects s').
Proof.
  vm_compute. repeat split. intros H.
  repeat (destruct H as [H|H]; [discriminate H|]). exact H.
Qed.

(** ** The timer handle and the lock *)

Section TimerHandle.

Lemma cancel_response_timeout_released (s : State) :
  responseTimeoutRef (cancel_response_timeout s) = None
  /\ isProcessing (cancel_response_timeout s) = isProcessing s.
Proof.
  unfold cancel_response_timeout.
  destruct (responseTimeoutRef s) eqn:E; simpl; auto.
Qed.

Lemma terminal_releases (e : Event) (s : State) :
  wf s -> terminal e = true ->
  responseTimeoutRef (step e s) = None /\ isProcessing (step e s) = false.
Proof.
  intros W He.
  destruct (socket s) eqn:Ek.
  - destruct e; try discriminate He; simpl; unfold subscribed; rewrite Ek.
    + unfold on_disconnect. cbv zeta.
      destruct (cancel_response_timeout_released
                  (setIsProcessing false (socket_on_disconnect s))) as [-> ->].
      split; reflexivity.
    + unfold on_message. cbv zeta.
      match goal with |- context [cancel_response_timeout ?x] =>
        destruct (cancel_response_timeout_released x) as [-> ->] end.
      split; reflexivity.
    + unfold on_metadata_result. cbv zeta.
      match goal with |- context [cancel_response_timeout ?x] =>
        destruct (cancel_response_timeout_released x) as [-> ->] end.
      split; reflexivity.
    + unfold on_error. cbv zeta.
      match goal with |- context [cancel_response_timeout ?x] =>
        destruct (cancel_response_timeout_released x) as [-> ->] end.
      split; reflexivity.
  - destruct (wf_idle _ W Ek) as [Hl Hr].
    destruct e; try discriminate He; simpl; unfold subscribed; rewrite Ek; auto.
Qed.

(** C7, as the code has it: in every reachable state the timer handle is
    non-null exactly while the one question timer it names is live, and no
    other timer is live.  Each of the inbound events [message],
    [metadata_result], [error] and [disconnect], and the firing of the
    live timer, leaves the handle null, the timer table empty and the
    lock released.  A [typing] event sets the lock to its status and
    leaves handle and timer as they are. *)
Theorem timer_handle_invariant (s : State) :
  reachable s ->
  timers s = match responseTimeoutRef s with
             | Some h => {[h]}
             | None => ∅
             end
  /\ (forall e, terminal e = true ->
        responseTimeoutRef (step e s) = None
        /\ timers (step e s) = ∅
        /\ isProcessing (step e s) = false)
  /\ (forall h t, responseTimeoutRef s = Some h ->
        responseTimeoutRef (step (TimerElapsed h t) s) = None
        /\ timers (step (TimerElapsed h t) s) = ∅
        /\ isProcessing (step (TimerElapsed h t) s) = false)
  /\ (forall status,
        responseTimeoutRef (step (Typing status) s) = responseTimeoutRef s
        /\ timers (step (Typing status) s) = timers s
        /\ (is_Some (socket s) -> isProcessing (step (Typing status) s) = status)).
Proof.
  intros Hr. pose proof (reachable_wf _ Hr) as W. split; [|split; [|split]].
  - apply wf_timers, W.
  - intros e He. destruct (terminal_releases e s W He) as [Href Hlock].
    pose proof (wf_timers _ (wf_step e s W)) as Ht. rewrite Href in Ht. auto.
  - intros h t Eh. simpl.
    assert (Ht : timers s = {[h]}) by (rewrite (wf_timers _ W), Eh; reflexivity).
    destruct (fire_timer_live h t s Ht) as (_ & L & R & T & _). auto.
  - intros status. simpl. unfold subscribed, on_typing.
    destruct (socket s) eqn:Ek; simpl; repeat split; auto.
    intros [k Hk]. discriminate Hk.
Qed.

End TimerHandle.

Lemma timer_handle_invariant_witness :
  let s := run Scenario.asked Scenario.fresh in
  timers s = match responseTimeoutRef s with
             | Some h => {[h]}
             | None => ∅
             end
  /\ (forall e, terminal e = true ->
        responseTimeoutRef (step e s) = None
        /\ timers (step e s) = ∅
        /\ isProcessing (step e s) = false)
  /\ (forall h t, responseTimeoutRef s = Some h ->
        responseTimeoutRef (step (TimerElapsed h t) s) = None
        /\ timers (step (TimerElapsed h t) s) = ∅
        /\ isProcessing (step (TimerElapsed h t) s) = false)
  /\ (forall status,
        responseTimeoutRef (step (Typing status) s) = responseTimeoutRef s
        /\ timers (step (Typing status) s) = timers s
        /\ (is_Some (socket s) -> isProcessing (step (Typing status) s) = status)).
Proof.
  intros s. apply (timer_handle_invariant s). apply reachable_run.
Defined.

(** C7, refuted as stated: after a connected question, [typing] with
    status [false] leaves a reachable state whose lock is released while
    the question timer is still armed and live. *)
Lemma typing_releases_lock_with_timer_armed :
  let s := run (Scenario.asked ++ [Typing false]) Scenario.fresh in
  reachable s
  /\ isProcessing s = false
  /\ responseTimeoutRef s = Some 1%positive
  /\ timers s = {[1%positive]}.
Proof.
  split; [apply reachable_run|]. vm_compute. repeat split.
Qed.

(** ** Upload progress *)

(** *** Rounding to the nearest double *)

Section Doubles.

Local Open Scope Q_scope.

Lemma Qdiv_lt_cross (a b c d : Z) :
  (0 < b)%Z -> (0 < d)%Z -> (a * d < c * b)%Z ->
  inject_Z a / inject_Z b < inject_Z c / inject_Z d.
Proof.
  intros Hb Hd H. destruct b as [|pb|pb]; try lia. destruct d as [|pd|pd]; try lia.
  unfold Qlt, Qdiv, Qmult, Qinv, inject_Z. simpl. lia.
Qed.

Lemma Qdiv_le_cross (a b c d : Z) :
  (0 < b)%Z -> (0 < d)%Z -> (a * d <= c * b)%Z ->
  inject_Z a / inject_Z b <= inject_Z c / inject_Z d.
Proof.
  intros Hb Hd H. destruct b as [|pb|pb]; try lia. destruct d as [|pd|pd]; try lia.
  unfold Qle, Qdiv, Qmult, Qinv, inject_Z. simpl. lia.
Qed.

Lemma two_power_minus (m n : Z) :
  (0 <= m)%Z -> (0 <= n)%Z -> 2 ^ (m - n) == inject_Z (2 ^ m) / inject_Z (2 ^ n).
Proof.
  intros Hm Hn. rewrite Qpower_minus by discriminate.
  rewrite !Zpower_Qpower by assumption. reflexivity.
Qed.

Lemma binade_bracket (a : Z) (b : positive) :
  (0 < a)%Z ->
  let k := (Z.log2 a - Z.log2 (Zpos b))%Z in
  2 ^ (k - 1) <= a # b /\ a # b < 2 ^ (k + 1).
Proof.
  intros Ha k.
  pose proof (Z.log2_spec a Ha) as [A1 A2].
  pose proof (Z.log2_spec (Zpos b) ltac:(lia)) as [B1 B2].
  pose proof (Z.log2_nonneg a) as La. pose proof (Z.log2_nonneg (Zpos b)) as Lb.
  assert (P1 : (0 < 2 ^ Z.log2 a)%Z) by (apply Z.pow_pos_nonneg; lia).
  assert (P2 : (0 < 2 ^ Z.log2 (Zpos b))%Z) by (apply Z.pow_pos_nonneg; lia).
  assert (P3 : (0 < 2 ^ Z.succ (Z.log2 (Zpos b)))%Z) by (apply Z.pow_pos_nonneg; lia).
  rewrite (Qmake_Qdiv a b). split.
  - replace (k - 1)%Z with (Z.log2 a - Z.succ (Z.log2 (Zpos b)))%Z by (unfold k; lia).
    rewrite two_power_minus by lia. apply Qdiv_le_cross; try lia. nia.
  - replace (k + 1)%Z with (Z.succ (Z.log2 a) - Z.log2 (Zpos b))%Z by (unfold k; lia).
    rewrite two_power_minus by lia. apply Qdiv_lt_cross; try lia. nia.
Qed.

Lemma binade_spec (q : Q) :
  0 < q -> 2 ^ binade q <= q /\ q < 2 ^ (binade q + 1).
Proof.
  intros Hq. destruct q as [a b].
  assert (Ha : (0 < a)%Z) by (unfold Qlt in Hq; simpl in Hq; lia).
  destruct (binade_bracket a b Ha) as [L U]. unfold binade. cbv zeta.
  cbn [Qnum Qden] in *.
  set (k := (Z.log2 a - Z.log2 (Zpos b))%Z) in *.
  destruct (Qle_bool (2 ^ k) (a # b)) eqn:E.
  - split; [apply Qle_bool_iff, E | exact U].
  - split; [exact L|].
    replace (k - 1 + 1)%Z with k by lia. apply Qnot_le_lt. intros H.
    apply Qle_bool_iff in H. congruence.
Qed.

Lemma round_half_even_bounds (r : Q) :
  (Qfloor r <= round_half_even r <= Qfloor r + 1)%Z.
Proof.
  unfold round_half_even. cbv zeta.
  destruct (r - inject_Z (Qfloor r) ?= 1 # 2); [destruct (Z.even (Qfloor r))| |]; lia.
Qed.

Lemma round_half_even_Z (z : Z) : round_half_even (inject_Z z) = z.
Proof.
  unfold round_half_even. cbv zeta. rewrite Qfloor_Z.
  destruct (Qcompare_spec (inject_Z z - inject_Z z) (1 # 2)) as [C|C|C];
    [exfalso | reflexivity | exfalso];
    revert C; unfold Qeq, Qlt, Qminus, Qplus, Qopp, inject_Z; simpl; lia.
Qed.

Lemma round_half_even_mono (r r' : Q) :
  r <= r' -> (round_half_even r <= round_half_even r')%Z.
Proof.
  intros H. pose proof (Qfloor_resp_le r r' H) as Hf.
  destruct (Z.eq_dec (Qfloor r) (Qfloor r')) as [E|E].
  - unfold round_half_even. cbv zeta. rewrite <- E.
    assert (Hd : r - inject_Z (Qfloor r) <= r' - inject_Z (Qfloor r)).
    { unfold Qminus. apply Qplus_le_l. exact H. }
    destruct (Qcompare_spec (r - inject_Z (Qfloor r)) (1 # 2)) as [C|C|C];
      destruct (Qcompare_spec (r' - inject_Z (Qfloor r)) (1 # 2)) as [C'|C'|C'];
      try (destruct (Z.even (Qfloor r))); try lia; exfalso; lra.
  - pose proof (round_half_even_bounds r). pose proof (round_half_even_bounds r'). lia.
Qed.

Lemma two_power_pos (e : Z) : 0 < 2 ^ e.
Proof. apply Qpower_0_lt. reflexivity. Qed.

(** The significand of a positive number has 53 bits. *)
Lemma significand_range (q : Q) :
  0 < q ->
  let e := (binade q - 52)%Z in
  (2 ^ 52 <= round_half_even (q / 2 ^ e) <= 2 ^ 53)%Z.
Proof.
  intros Hq e. destruct (binade_spec q Hq) as [L U].
  pose proof (two_power_pos e) as Pe.
  assert (L' : inject_Z (2 ^ 52) <= q / 2 ^ e).
  { rewrite Zpower_Qpower by lia.
    replace 52%Z with (binade q - e)%Z by (unfold e; lia).
    rewrite Qpower_minus by discriminate.
    unfold Qdiv. apply Qmult_le_compat_r; [exact L|].
    apply Qinv_le_0_compat, Qlt_le_weak, Pe. }
  assert (U' : q / 2 ^ e <= inject_Z (2 ^ 53)).
  { rewrite Zpower_Qpower by lia.
    replace 53%Z with (binade q + 1 - e)%Z by (unfold e; lia).
    rewrite Qpower_minus by discriminate.
    unfold Qdiv. apply Qmult_le_compat_r; [apply Qlt_le_weak, U|].
    apply Qinv_le_0_compat, Qlt_le_weak, Pe. }
  apply round_half_even_mono in L', U'. rewrite round_half_even_Z in L', U'. lia.
Qed.

Lemma binade_mono (x y : Q) : 0 < x -> x <= y -> (binade x <= binade y)%Z.
Proof.
  intros Hx Hxy. assert (Hy : 0 < y) by (eapply Qlt_le_trans; eassumption).
  destruct (binade_spec x Hx) as [Lx _]. destruct (binade_spec y Hy) as [_ Uy].
  destruct (Z_le_gt_dec (binade x) (binade y)) as [|G]; [assumption|exfalso].
  assert (P : 2 ^ (binade y + 1) <= 2 ^ binade x)
    by (apply Qpower_le_compat_l; [lia | discriminate]).
  apply (Qlt_irrefl y).
  eapply Qlt_le_trans; [exact Uy|]. eapply Qle_trans; [exact P|].
  eapply Qle_trans; eassumption.
Qed.

Lemma round_significand_mono (x y : Q) :
  0 < x -> x <= y -> round_significand x <= round_significand y.
Proof.
  intros Hx Hxy. assert (Hy : 0 < y) by (eapply Qlt_le_trans; eassumption).
  pose proof (binade_mono x y Hx Hxy) as Hb.
  pose proof (significand_range x Hx) as [_ Sx].
  pose proof (significand_range y Hy) as [Sy _]. cbv zeta in Sx, Sy.
  unfold round_significand. cbv zeta.
  destruct (Z.eq_dec (binade x) (binade y)) as [E|E].
  - rewrite E. apply Qmult_le_compat_r; [|apply Qlt_le_weak, two_power_pos].
    rewrite <- Zle_Qle. apply round_half_even_mono.
    unfold Qdiv. apply Qmult_le_compat_r; [exact Hxy|].
    apply Qinv_le_0_compat, Qlt_le_weak, two_power_pos.
  - set (ex := (binade x - 52)%Z) in *. set (ey := (binade y - 52)%Z) in *.
    apply Qle_trans with (inject_Z (2 ^ 53) * 2 ^ ex).
    { apply Qmult_le_compat_r; [|apply Qlt_le_weak, two_power_pos].
      rewrite <- Zle_Qle. exact Sx. }
    apply Qle_trans with (inject_Z (2 ^ 52) * 2 ^ ey).
    2:{ apply Qmult_le_compat_r; [|apply Qlt_le_weak, two_power_pos].
        rewrite <- Zle_Qle. exact Sy. }
    rewrite !Zpower_Qpower by lia. rewrite <- !Qpower_plus by discriminate.
    apply Qpower_le_compat_l; [unfold ex, ey; lia | discriminate].
Qed.

Lemma round_significand_pos (x : Q) : 0 < x -> 0 < round_significand x.
Proof.
  intros Hx. pose proof (significand_range x Hx) as [S _]. cbv zeta in S.
  unfold round_significand. cbv zeta.
  apply Qlt_le_trans with (inject_Z (2 ^ 52) * 2 ^ (binade x - 52)).
  - rewrite <- (Qmult_0_l (2 ^ (binade x - 52))).
    apply Qmult_lt_compat_r; [apply two_power_pos | reflexivity].
  - apply Qmult_le_compat_r; [|apply Qlt_le_weak, two_power_pos].
    rewrite <- Zle_Qle. exact S.
Qed.

Lemma Qnum_pos (x : Q) : 0 < x <-> (0 < Qnum x)%Z.
Proof. unfold Qlt. simpl. lia. Qed.

(** Rounding to the nearest double never inverts an order. *)
Lemma round_double_mono (x y : Q) :
  0 <= x -> x <= y -> round_double x <= round_double y.
Proof.
  intros Hx Hxy. assert (Hy : 0 <= y) by (eapply Qle_trans; eassumption).
  unfold round_double.
  destruct (Qnum x) as [|px|px] eqn:Ex.
  - destruct (Qnum y) as [|py|py] eqn:Ey.
    + apply Qle_refl.
    + apply Qlt_le_weak, round_significand_pos, Qnum_pos. lia.
    + exfalso. unfold Qle in Hy. simpl in Hy. lia.
  - assert (Px : 0 < x) by (apply Qnum_pos; lia).
    assert (Py : 0 < y) by (eapply Qlt_le_trans; eassumption).
    apply Qnum_pos in Py. destruct (Qnum y) as [|py|py] eqn:Ey; try lia.
    apply round_significand_mono; assumption.
  - exfalso. unfold Qle in Hx. simpl in Hx. lia.
Qed.

Lemma round_double_nonneg (x : Q) : 0 <= x -> 0 <= round_double x.
Proof. intros Hx. apply (round_double_mono 0 x); [apply Qle_refl | exact Hx]. Qed.

Lemma round_double_1 : round_double 1 == 1.
Proof. vm_compute. reflexivity. Qed.

Lemma round_double_100 : round_double (inject_Z 100) == 100.
Proof. vm_compute. reflexivity. Qed.

Lemma to_number_mono (a b : N) : (a <= b)%N -> to_number a <= to_number b.
Proof.
  intros H. unfold to_number. apply round_double_mono.
  - unfold Qle. simpl. lia.
  - rewrite <- Zle_Qle. lia.
Qed.

Lemma to_number_pos (t : N) : (0 < t)%N -> 0 < to_number t.
Proof.
  intros H. unfold to_number, round_double. destruct t as [|p]; [lia|]. simpl.
  apply round_significand_pos. reflexivity.
Qed.

Lemma to_number_nonneg (a : N) : 0 <= to_number a.
Proof. apply round_double_nonneg. unfold Qle. simpl. lia. Qed.

(** The quotient the listener computes, as a rational. *)
Lemma js_div_Fin (l t : N) :
  (0 < t)%N -> js_div l t = Fin (round_double (to_number l / to_number t)).
Proof.
  intros H. unfold js_div. destruct (N.eqb_spec t 0); [lia | reflexivity].
Qed.

Lemma quotient_range (l t : N) :
  (0 < t)%N -> (l <= t)%N ->
  0 <= to_number l / to_number t /\ to_number l / to_number t <= 1.
Proof.
  intros Ht Hl. pose proof (to_number_pos t Ht) as Pt. split.
  - apply Qle_shift_div_l; [exact Pt|]. rewrite Qmult_0_l. apply to_number_nonneg.
  - apply Qle_shift_div_r; [exact Pt|]. rewrite Qmult_1_l. apply to_number_mono, Hl.
Qed.

Lemma quotient_mono (l l' t : N) :
  (0 < t)%N -> (l <= l')%N ->
  to_number l / to_number t <= to_number l' / to_number t.
Proof.
  intros Ht Hl. unfold Qdiv. apply Qmult_le_compat_r; [apply to_number_mono, Hl|].
  apply Qinv_le_0_compat, Qlt_le_weak, to_number_pos, Ht.
Qed.

Lemma progress_stored (l t : N) :
  (0 < t)%N ->
  Math_round (js_mul (js_div l t) 100) = Fin (inject_Z (stored_percent l t)).
Proof. intros Ht. rewrite (js_div_Fin l t Ht). reflexivity. Qed.

Lemma stored_percent_mono (l l' t : N) :
  (0 < t)%N -> (l <= l')%N -> (stored_percent l t <= stored_percent l' t)%Z.
Proof.
  intros Ht Hl. unfold stored_percent. apply Qfloor_resp_le, Qplus_le_l.
  assert (Q0 : 0 <= to_number l / to_number t).
  { apply Qle_shift_div_l; [apply to_number_pos, Ht|].
    rewrite Qmult_0_l. apply to_number_nonneg. }
  apply round_double_mono.
  - apply Qmult_le_0_compat; apply round_double_nonneg; [exact Q0 | discriminate].
  - apply Qmult_le_compat_r; [|apply round_double_nonneg; discriminate].
    apply round_double_mono; [exact Q0 | apply quotient_mono; assumption].
Qed.

Lemma stored_percent_range (l t : N) :
  (0 < t)%N -> (l <= t)%N -> (0 <= stored_percent l t <= 100)%Z.
Proof.
  intros Ht Hl. destruct (quotient_range l t Ht Hl) as [Q0 Q1].
  set (x := round_double (to_number l / to_number t)).
  assert (X0 : 0 <= x) by (apply round_double_nonneg, Q0).
  assert (X1 : x <= 1).
  { rewrite <- round_double_1. apply round_double_mono; assumption. }
  assert (C : 0 <= round_double (inject_Z 100))
    by (apply round_double_nonneg; discriminate).
  set (y := round_double (x * round_double (inject_Z 100))).
  assert (Y0 : 0 <= y).
  { apply round_double_nonneg, Qmult_le_0_compat; assumption. }
  assert (Y1 : y <= 100).
  { rewrite <- round_double_100. apply round_double_mono.
    - apply Qmult_le_0_compat; assumption.
    - rewrite round_double_100. apply Qle_trans with (1 * 100); [|discriminate].
      apply Qmult_le_compat_r; [exact X1 | discriminate]. }
  unfold stored_percent. fold x. fold y. split.
  - change 0%Z with (Qfloor (0 + (1 # 2))). apply Qfloor_resp_le, Qplus_le_l, Y0.
  - change 100%Z with (Qfloor (100 + (1 # 2))). apply Qfloor_resp_le, Qplus_le_l, Y1.
Qed.

Lemma round_double_eq (x y : Q) : 0 <= x -> x == y -> round_double x == round_double y.
Proof.
  intros Hx E. assert (Hy : 0 <= y) by (rewrite <- E; exact Hx).
  apply Qle_antisym; apply round_double_mono; try assumption;
    rewrite E; apply Qle_refl.
Qed.

Lemma stored_percent_of_quotient (l t : N) (c : Q) :
  (0 < t)%N -> to_number l / to_number t == c ->
  stored_percent l t
  = Qfloor (round_double (round_double c * round_double (inject_Z 100)) + (1 # 2)).
Proof.
  intros Ht E.
  assert (Q0 : 0 <= to_number l / to_number t).
  { apply Qle_shift_div_l; [apply to_number_pos, Ht|].
    rewrite Qmult_0_l. apply to_number_nonneg. }
  unfold stored_percent. apply Qfloor_comp. apply Qplus_comp; [|reflexivity].
  apply round_double_eq.
  - apply Qmult_le_0_compat; apply round_double_nonneg; [exact Q0 | discriminate].
  - apply Qmult_comp; [|reflexivity]. apply round_double_eq; assumption.
Qed.

Lemma stored_percent_ends (t : N) :
  (0 < t)%N -> stored_percent 0 t = 0%Z /\ stored_percent t t = 100%Z.
Proof.
  intros Ht. pose proof (to_number_pos t Ht) as Pt. split.
  - rewrite (stored_percent_of_quotient 0 t 0 Ht); [vm_compute; reflexivity|].
    unfold Qdiv. apply Qmult_0_l.
  - rewrite (stored_percent_of_quotient t t 1 Ht); [vm_compute; reflexivity|].
    apply Qmult_inv_r. intros E. apply (Qlt_not_eq _ _ Pt). symmetry. exact E.
Qed.

End Doubles.

Section UploadProgress.

(** C8: on a progress notification the upload primitive can deliver
    ([lengthComputable] set, a non-zero [total] that fits an
    [unsigned long long], [loaded] at most [total]) the listener stores [Math.round((loaded / total) * 100)],
    computed in doubles: an integer between 0 and 100, so equal to its
    own clamp, 0 when nothing is sent yet and 100 when all is sent.  Any
    notification of the same [total] with no smaller [loaded] stores no
    smaller value, so the progress never decreases within one attempt.
    [uploadImage] resets [uploadProgress] to 0 as soon as the preview URL
    exists. *)
Theorem xhr_upload_progress_percent (ev : ProgressEvent) (s : State) :
  lengthComputable ev = true -> (0 < total ev < 2 ^ 64)%N ->
  (loaded ev <= total ev)%N ->
  let k := stored_percent (loaded ev) (total ev) in
  uploadProgress (xhr_upload_progress ev s) = Fin (inject_Z k)
  /\ Math_round (js_mul (js_div (loaded ev) (total ev)) 100) = Fin (inject_Z k)
  /\ 0 <= k <= 100
  /\ clamp 0 100 k = k
  /\ (loaded ev = 0%N -> k = 0)
  /\ (loaded ev = total ev -> k = 100)
  /\ (forall ev' s', lengthComputable ev' = true -> total ev' = total ev ->
                     (loaded ev <= loaded ev' <= total ev')%N ->
        number_le (uploadProgress (xhr_upload_progress ev s))
                  (uploadProgress (xhr_upload_progress ev' s')))
  /\ (forall file url sent now,
        uploadProgress (uploadImage file (inr url) sent now s) = Fin 0).
Proof.
  intros Hc [Ht _] Hl. destruct ev as [c l t]. simpl in *. subst c.
  pose proof (stored_percent_range l t Ht Hl) as B.
  unfold xhr_upload_progress. cbn [lengthComputable loaded total uploadProgress setUploadProgress].
  rewrite (progress_stored l t Ht).
  split; [reflexivity|]. split; [reflexivity|]. split; [exact B|].
  split; [unfold clamp; lia|].
  split; [intros ->; apply (stored_percent_ends t Ht)|].
  split; [intros ->; apply (stored_percent_ends t Ht)|]. split.
  - intros [c' l' t'] s' Hc' Ht' [Hl' _]. simpl in *. subst c' t'.
    rewrite (progress_stored l' t Ht). simpl.
    rewrite <- Zle_Qle. apply stored_percent_mono; assumption.
  - intros file url sent now. unfold uploadImage, uploadImage_catch.
    simpl. destruct (isConnected s); [destruct sent|]; reflexivity.
Qed.

(** Doubles, not exact fractions: 23 of 40 is 57.49999999999999 per cent
    and is stored as 57, 57 of 200 is stored as 28. *)
Lemma stored_percent_in_doubles :
  Math_round (js_mul (js_div 23 40) 100) = Fin (inject_Z 57)
  /\ Math_round (js_mul (js_div 57 200) 100) = Fin (inject_Z 28)
  /\ Math_round (js_mul (js_div 1 3) 100) = Fin (inject_Z 33).
Proof. vm_compute. repeat split. Qed.

End UploadProgress.

Lemma xhr_upload_progress_percent_witness :
  let ev := mkProgress true 23 40 in
  let s := run [Mount; Connect "sid1";
                Upload Scenario.photo (inr "blob:1") None "09:00:00"] Scenario.fresh in
  let k := stored_percent 23 40 in
  uploadProgress (xhr_upload_progress ev s) = Fin (inject_Z k)
  /\ Math_round (js_mul (js_div (loaded ev) (total ev)) 100) = Fin (inject_Z k)
  /\ 0 <= k <= 100
  /\ clamp 0 100 k = k
  /\ (loaded ev = 0%N -> k = 0)
  /\ (loaded ev = total ev -> k = 100)
  /\ (forall ev' s', lengthComputable ev' = true -> total ev' = total ev ->
                     (loaded ev <= loaded ev' <= total ev')%N ->
        number_le (uploadProgress (xhr_upload_progress ev s))
                  (uploadProgress (xhr_upload_progress ev' s')))
  /\ (forall file url sent now,
        uploadProgress (uploadImage file (inr url) sent now s) = Fin 0).
Proof.
  intros ev s.
  apply (xhr_upload_progress_percent ev s).
  - reflexivity.
  - split; reflexivity.
  - vm_compute. discriminate.
Defined.

(** ** The stored image path *)

Section StoredPath.

Ltac step_cases :=
  repeat match goal with
         | |- context [match ?x with _ => _ end] => destruct x eqn:?; simpl
         end.

(** No handler writes [localStorage]; [clearImage] removes one key. *)
Lemma step_localStorage (e : Event) (s : State) :
  localStorage (step e s) = localStorage s
  \/ localStorage (step e s) = delete current_image_path (localStorage s).
Proof.
  destruct e; simpl;
    unfold subscribed, in_flight, socket_provider_mount, on_disconnect, on_message,
      on_metadata_result, on_error, cancel_response_timeout, sendMessage,
      uploadImage, uploadImage_catch, xhr_upload_progress, xhr_load, upload_failed,
      clearImage, fire_timer, sendToSocket;
    cbv zeta; simpl; step_cases; auto.
Qed.

(** Whatever the session does, the stored path is the one the page was
    loaded with, or none: the path of an uploaded image never gets there. *)
Lemma run_localStorage (es : list Event) :
  forall s, localStorage (run es s) ⊆ localStorage s.
Proof.
  induction es as [|e es IH]; intros s; [reflexivity|].
  change (run (e :: es) s) with (run es (step e s)).
  etrans; [apply IH|].
  destruct (step_localStorage e s) as [-> | ->]; [reflexivity | apply delete_subseteq].
Qed.

Lemma fresh_session_has_no_path (es : list Event) (backend : option string) :
  localStorage (run es (initial ∅ backend)) !! current_image_path = None.
Proof.
  pose proof (run_localStorage es (initial ∅ backend)) as H. simpl in H.
  destruct (localStorage _ !! current_image_path) as [v|] eqn:E; [|reflexivity].
  pose proof (proj1 (map_subseteq_spec _ _) H current_image_path v E) as H'.
  rewrite lookup_empty in H'. discriminate H'.
Qed.

End StoredPath.

(** C2, at the failing input: the server stored the upload as
    [/tmp/x.jpg] and the path went out with [analyze_image]; the question
    asked next takes the lock, arms timer 1 for 60000 ms and emits
    [message] with the text, but with no image path, because nothing ever
    writes [current_image_path] to [localStorage]. *)
Theorem sendMessage_sends_no_image_path :
  let s := run Scenario.analysed Scenario.fresh in
  let s' := step (Ask "what is this?" "09:01:00" "09:01:00") s in
  In (Emit "analyze_image" (AnalyzePayload (Some "/tmp/x.jpg"))) (effects s)
  /\ isConnected s = true
  /\ imageUrl s = "blob:1"
  /\ isProcessing s' = true
  /\ responseTimeoutRef s' = Some 1%positive
  /\ effects s' = effects s ++ [SetTimeout 1 60000;
                                Emit "message" (MessagePayload "what is this?" None)].
Proof.
  vm_compute. repeat split. right. right. left. reflexivity.
Qed.

(** ** A rejected upload *)

(** A 2xx answer whose payload does not report success with metadata
    makes the [load] listener do nothing. *)
Lemma xhr_load_rejected (status : Z) (r : UploadResponse) (now : string) (s : State) :
  200 <= status < 300 ->
  success r = false \/ metadata r = None ->
  xhr_load status (JsonText r) now s = s.
Proof.
  intros Hs Hr. unfold xhr_load.
  replace ((200 <=? status) && (status <? 300)) with true
    by (symmetry; apply andb_true_intro; split;
        [apply Z.leb_le | apply Z.ltb_lt]; lia).
  destruct Hr as [-> | Hm]; [reflexivity|].
  rewrite Hm. destruct (success r); reflexivity.
Qed.

(** C1, at the failing input: the upload is in flight with the lock held
    and the server answers 200 with [{success: false, error: ...}]; the
    [load] listener appends no message and leaves the lock held.  The same
    body under status 500 takes the HTTP-error branch, which appends the
    error message and releases the lock. *)
Theorem xhr_load_rejected_keeps_lock :
  let s := run Scenario.uploading Scenario.fresh in
  let s' := step (XhrLoad 200 Scenario.rejected "09:00:01") s in
  let s'' := step (XhrLoad 500 Scenario.rejected "09:00:01") s in
  isProcessing s = true
  /\ messages s' = messages s
  /\ isProcessing s' = true
  /\ effects s' = effects s
  /\ messages s'' = messages s ++ [mkMessage "Error uploading image: Unsupported image"
                                     ai "09:00:01"]
  /\ isProcessing s'' = false.
Proof.
  vm_compute. repeat split.
Qed.

(** ** The conversation history *)

Section History.

Ltac appended :=
  first
    [ exists []; split; [symmetry; apply app_nil_r | split; [constructor | simpl; lia]]
    | eexists [_]; split; [reflexivity | split; [repeat constructor | simpl; lia]] ].

(** No handler reorders or rewrites the history.  [clearImage] empties
    it; [sendMessage] leaves it alone or appends the user's message,
    followed by at most one assistant message; every other event appends
    at most one message, and that message is the assistant's. *)
Theorem history_append_only (e : Event) (s : State) :
  match e with
  | Clear => messages (step e s) = []
  | Ask content now _ =>
      messages (step e s) = messages s
      \/ exists l, messages (step e s) = messages s ++ mkMessage content user now :: l
                   /\ Forall (fun m => sender m = ai) l /\ (length l <= 1)%nat
  | _ =>
      exists l, messages (step e s) = messages s ++ l
                /\ Forall (fun m => sender m = ai) l /\ (length l <= 1)%nat
  end.
Proof.
  destruct e; open_step; try appended; try reflexivity;
    try (left; reflexivity); right;
    first [ exists []; repeat split; [constructor | simpl; lia]
          | eexists [_]; rewrite <- app_assoc; repeat split; repeat constructor ].
Qed.

End History.

(** ** Taking the lock *)

Section Lock.

(** The lock goes from free to held in three ways only: a [typing] event
    with status [true], a [sendMessage] made while connected with an image
    present, and an [uploadImage] made while connected in which nothing
    throws. *)
Theorem lock_taken_only_by (e : Event) (s : State) :
  isProcessing s = false -> isProcessing (step e s) = true ->
  match e with
  | Typing status => status = true
  | Ask _ _ _ => isConnected s = true /\ imageUrl s <> ""
  | Upload _ created sent _ =>
      isConnected s = true /\ sent = None /\ exists url, created = inr url
  | _ => False
  end.
Proof.
  intros H0. destruct e; open_step; intros H1; try congruence;
    repeat split; eauto; try discriminate;
    try (destruct (isConnected s); [reflexivity | discriminate]);
    match goal with
    | H : negb (truthy (imageUrl s)) = false |- _ =>
        intros E; rewrite E in H; discriminate H
    end.
Qed.

(** The lock goes from held to free only through a terminal inbound
    event, a [typing] event with status [false], the timeout, a failed
    upload (an HTTP status outside 200..299, a network error, an
    exception in [uploadImage]).  In particular [connect_error],
    [clearImage], a progress notification and an accepted upload never
    free it. *)
Theorem lock_released_only_by (e : Event) (s : State) :
  isProcessing s = true -> isProcessing (step e s) = false ->
  match e with
  | Mount | Connect _ | ConnectError | Ask _ _ _ | Clear | XhrProgress _ => False
  | Typing status => status = false
  | XhrLoad status _ _ => ~ (200 <= status < 300)
  | Upload _ created sent _ => (exists t, created = inl t) \/ (exists t, sent = Some t)
  | Disconnect | ServerMessage _ _ | MetadataResult _ _ | ServerError _ _
  | XhrFailed _ | TimerElapsed _ _ => True
  end.
Proof.
  intros H0. destruct e; open_step; intros H1; try congruence; try exact I; eauto;
    match goal with
    | H : (200 <=? ?x) && (?x <? 300) = false |- _ =>
        intros [A B]; apply Z.leb_le in A; apply Z.ltb_lt in B;
        rewrite A, B in H; discriminate H
    end.
Qed.

End Lock.

Lemma lock_released_only_by_witness :
  let s := run Scenario.uploading Scenario.fresh in
  ~ (200 <= 502 < 300).
Proof.
  intros s.
  apply (lock_released_only_by (XhrLoad 502 EmptyText "09:00:02") s).
  - vm_compute. reflexivity.
  - vm_compute. reflexivity.
Defined.

Lemma lock_taken_only_by_witness :
  let s := run Scenario.analysed Scenario.fresh in
  isConnected s = true /\ imageUrl s <> "".
Proof.
  intros s.
  apply (lock_taken_only_by (Ask "what is this?" "09:01:00" "09:01:00") s).
  - vm_compute. reflexivity.
  - vm_compute. reflexivity.
Defined.

(** ** Questions and their timers *)

Section Timers.

(** Induction over the runs of the event loop, with [wf] at hand. *)
Lemma reachable_ind (P : State -> Prop) :
  (forall store backend, P (initial store backend)) ->
  (forall e s, wf s -> P s -> P (step e s)) ->
  forall s, reachable s -> P s.
Proof.
  intros Hinit Hstep s (store & backend & es & <-).
  assert (G : forall es s0, wf s0 -> P s0 -> P (run es s0)).
  { clear es. induction es as [|e es IH]; intros s0 W H0; [exact H0|].
    change (run (e :: es) s0) with (run es (step e s0)).
    apply IH; [apply wf_step, W | apply Hstep; assumption]. }
  apply G; [apply wf_initial | apply Hinit].
Qed.

Lemma count_effects_app (p : Effect -> bool) (l l' : list Effect) :
  count_effects p (l ++ l') = (count_effects p l + count_effects p l')%nat.
Proof. unfold count_effects. rewrite List.filter_app, length_app. reflexivity. Qed.

Lemma count_effects_one (p : Effect -> bool) (x : Effect) :
  count_effects p [x] = if p x then 1%nat else 0%nat.
Proof. unfold count_effects. simpl. destruct (p x); reflexivity. Qed.

Lemma step_arms_per_question (e : Event) (s : State) :
  wf s ->
  (count_effects is_arm (effects (step e s)) + count_effects is_question (effects s)
   = count_effects is_question (effects (step e s)) + count_effects is_arm (effects s))%nat.
Proof.
  intros W. destruct e; open_step;
    rewrite ?count_effects_app, ?count_effects_one; simpl; try lia.
  all: exfalso; destruct (wf_connected _ W) as [k Hk];
    [destruct (isConnected s); [reflexivity | discriminate]
    | simpl in *; congruence].
Qed.

(** In every reachable state the page has called [window.setTimeout] as
    many times as it has emitted [message]: each question that went out
    has its own timer, and no timer is armed for anything else. *)
Theorem one_timer_per_question (s : State) :
  reachable s ->
  count_effects is_arm (effects s) = count_effects is_question (effects s).
Proof.
  revert s. apply reachable_ind.
  - reflexivity.
  - intros e s W IH. pose proof (step_arms_per_question e s W). lia.
Qed.

Lemma step_fresh_handles (e : Event) (s : State) :
  fresh_handles s -> fresh_handles (step e s).
Proof.
  unfold fresh_handles. intros F. destruct e; open_step; intros h Hh;
    repeat match goal with
           | H : _ ∈ _ ∪ _ |- _ => apply elem_of_union in H as [H|H]
           | H : _ ∈ _ ∖ _ |- _ => apply elem_of_difference in H as [H _]
           | H : _ ∈ {[_]} |- _ => apply elem_of_singleton in H; subst
           end;
    try (specialize (F _ Hh)); lia.
Qed.

Lemma reachable_fresh_handles (s : State) : reachable s -> fresh_handles s.
Proof.
  revert s. apply reachable_ind.
  - intros store backend h Hh. simpl in Hh.
    exfalso. exact (not_elem_of_empty (C:=gset positive) h Hh).
  - intros e s _ F. apply step_fresh_handles, F.
Qed.

(** Once a terminal event ([message], [metadata_result], [error],
    [disconnect]) has been handled, no timer of the page is left to fire:
    a timeout for any handle changes nothing, so an answered question is
    never followed by a timeout message. *)
Theorem no_timeout_after_terminal (e : Event) (h : positive) (t : string) (s : State) :
  reachable s -> terminal e = true ->
  step (TimerElapsed h t) (step e s) = step e s.
Proof.
  intros Hr He. pose proof (reachable_wf _ Hr) as W.
  destruct (terminal_releases e s W He) as [Href _].
  pose proof (wf_timers _ (wf_step e s W)) as Ht. rewrite Href in Ht.
  simpl. unfold fire_timer. rewrite Ht.
  rewrite decide_False by apply not_elem_of_empty. reflexivity.
Qed.

(** A question asked while the timer of an earlier one is still armed
    (the lock having been freed by [typing]) clears that timer and arms a
    new one under a different handle; the old timer can no longer fire. *)
Theorem sendMessage_replaces_timer
    (content now now' : string) (h : positive) (t : string) (s : State) :
  reachable s -> imageUrl s <> "" -> isConnected s = true ->
  responseTimeoutRef s = Some h ->
  let s1 := step (Ask content now now') s in
  In (ClearTimeout h) (effects s1)
  /\ responseTimeoutRef s1 = Some (nextTimer s)
  /\ h <> nextTimer s
  /\ timers s1 = {[nextTimer s]}
  /\ step (TimerElapsed h t) s1 = s1.
Proof.
  intros Hr Hu Hc Hh. pose proof (reachable_wf _ Hr) as W.
  destruct (sendMessage_connected content now now' s W Hu Hc)
    as (_ & _ & R1 & T1 & E1 & _).
  assert (Hne : h <> nextTimer s).
  { pose proof (reachable_fresh_handles s Hr h) as F.
    rewrite (wf_timers _ W), Hh in F.
    specialize (F ltac:(apply elem_of_singleton; reflexivity)). lia. }
  cbv zeta. change (step (Ask content now now') s) with (sendMessage content now now' s).
  repeat split; try assumption.
  - rewrite E1, Hh. apply in_or_app. right. left. reflexivity.
  - simpl. unfold fire_timer. rewrite T1.
    rewrite decide_False; [reflexivity|].
    intros Hin. apply elem_of_singleton in Hin. contradiction.
Qed.

End Timers.

Lemma no_timeout_after_terminal_witness :
  let s := run Scenario.asked Scenario.fresh in
  let e := ServerMessage (mkMessageData assistant "A cat.") "09:01:10" in
  step (TimerElapsed 1 "09:02:00") (step e s) = step e s.
Proof.
  intros s e. apply (no_timeout_after_terminal e 1 "09:02:00" s).
  - apply reachable_run.
  - reflexivity.
Defined.

Lemma sendMessage_replaces_timer_witness :
  let s := run (Scenario.asked ++ [Typing false]) Scenario.fresh in
  let s1 := step (Ask "and this?" "09:01:30" "09:01:30") s in
  In (ClearTimeout 1) (effects s1)
  /\ responseTimeoutRef s1 = Some (nextTimer s)
  /\ 1%positive <> nextTimer s
  /\ timers s1 = {[nextTimer s]}
  /\ step (TimerElapsed 1 "09:02:00") s1 = s1.
Proof.
  intros s.
  apply (sendMessage_replaces_timer "and this?" "09:01:30" "09:01:30" 1 "09:02:00" s).
  - apply reachable_run.
  - vm_compute. discriminate.
  - vm_compute. reflexivity.
  - vm_compute. reflexivity.
Defined.

Lemma one_timer_per_question_witness :
  let s := run (Scenario.asked ++ [Typing false; Ask "and this?" "09:01:30" "09:01:30"])
             Scenario.fresh in
  count_effects is_arm (effects s) = count_effects is_question (effects s).
Proof.
  intros s. apply (one_timer_per_question s). apply reachable_run.
Defined.

(** ** Outcomes of an upload *)

Section UploadOutcomes.

Lemma not_2xx (status : Z) :
  ~ (200 <= status < 300) -> (200 <=? status) && (status <? 300) = false.
Proof.
  intros H. destruct (200 <=? status) eqn:E1; [|reflexivity].
  destruct (status <? 300) eqn:E2; [|reflexivity].
  apply Z.leb_le in E1. apply Z.ltb_lt in E2. lia.
Qed.

(** [metadata_result] appends exactly one assistant message: the
    analysis text when it is a non-empty string, the canned text when the
    analysis is absent or empty.  Whatever the session was doing, it also
    puts [uploadProgress] at 100, frees the lock and clears the handle. *)
Theorem on_metadata_result_effect (data : MetadataResultData) (now : string) (s : State) :
  let s' := on_metadata_result data now s in
  messages s' = messages s
                ++ [mkMessage match analysis data with
                              | Some a => if truthy a then a else processed_text
                              | None => processed_text
                              end ai now]
  /\ uploadProgress s' = Fin 100
  /\ isProcessing s' = false
  /\ responseTimeoutRef s' = None
  /\ imageUrl s' = imageUrl s.
Proof.
  unfold on_metadata_result, cancel_response_timeout, or_else. cbv zeta.
  destruct (analysis data) as [a|]; [destruct (truthy a) eqn:Ea|]; simpl;
    rewrite ?Ea; destruct (responseTimeoutRef s) eqn:Er; simpl; repeat split;
    exact Er.
Qed.

(** An upload that ends with an HTTP status outside 200..299 and a body
    that is empty or JSON, or with a network error, shows one error
    message (the server's [error] text when it is a non-empty string,
    [Upload failed] otherwise) and frees the lock.  Neither listener
    touches the question timer, the preview or the progress value, and
    neither emits anything. *)
Theorem upload_failure_releases_lock
    (status : Z) (responseText : ResponseText) (now : string) (s : State) :
  ~ (200 <= status < 300) -> responseText <> NotJson ->
  let s1 := xhr_load status responseText now s in
  let s2 := xhr_error now s in
  (messages s1 = messages s
                 ++ [mkMessage ("Error uploading image: " +:+ failure_text responseText)
                       ai now]
   /\ isProcessing s1 = false
   /\ responseTimeoutRef s1 = responseTimeoutRef s /\ timers s1 = timers s
   /\ imageUrl s1 = imageUrl s /\ uploadProgress s1 = uploadProgress s
   /\ effects s1 = effects s)
  /\ (messages s2 = messages s
                    ++ [mkMessage "Error uploading image. Please try again later." ai now]
      /\ isProcessing s2 = false
      /\ responseTimeoutRef s2 = responseTimeoutRef s /\ timers s2 = timers s
      /\ imageUrl s2 = imageUrl s /\ uploadProgress s2 = uploadProgress s
      /\ effects s2 = effects s).
Proof.
  intros Hs Ht. cbv zeta. unfold xhr_load, xhr_error, upload_failed, or_else, failure_text.
  rewrite (not_2xx status Hs).
  destruct responseText as [| |r]; [|congruence|]; simpl; repeat split.
Qed.

(** A body that cannot be parsed ends the [load] listener before it does
    anything, whatever the status; so does an empty body under any status
    from 200 to 299.  No message is shown, nothing is emitted and the lock
    keeps the value it had. *)
Theorem xhr_load_unparseable (status status' : Z) (now : string) (s : State) :
  200 <= status' < 300 ->
  let s1 := xhr_load status NotJson now s in
  let s2 := xhr_load status' EmptyText now s in
  (messages s1 = messages s /\ isProcessing s1 = isProcessing s
   /\ responseTimeoutRef s1 = responseTimeoutRef s
   /\ effects s1 = effects s ++ [Uncaught])
  /\ (messages s2 = messages s /\ isProcessing s2 = isProcessing s
      /\ responseTimeoutRef s2 = responseTimeoutRef s
      /\ effects s2 = effects s ++ [Uncaught]).
Proof.
  intros Hs. cbv zeta. unfold xhr_load.
  replace ((200 <=? status') && (status' <? 300)) with true
    by (symmetry; apply andb_true_intro; split;
        [apply Z.leb_le | apply Z.ltb_lt]; lia).
  destruct ((200 <=? status) && (status <? 300)); repeat split.
Qed.

(** [uploadImage] while disconnected sets the preview and puts the
    progress at 0, shows one informational message, and stops there: the
    lock is not taken and no request is opened, whatever [xhr.send] would
    have done. *)
Theorem uploadImage_disconnected
    (file : File) (url : string) (sent : option Thrown) (now : string) (s : State) :
  isConnected s = false ->
  let s' := uploadImage file (inr url) sent now s in
  imageUrl s' = url
  /\ uploadProgress s' = Fin 0
  /\ messages s' = messages s ++ [mkMessage no_socket_text ai now]
  /\ isProcessing s' = isProcessing s
  /\ effects s' = effects s ++ [CreateObjectURL url]
  /\ xhrs s' = xhrs s
  /\ responseTimeoutRef s' = responseTimeoutRef s.
Proof.
  intros Hc. unfold uploadImage, URL_createObjectURL. simpl. rewrite Hc. simpl.
  repeat split.
Qed.

(** An exception inside [uploadImage] ends in its [catch] block, which
    shows the message of the thrown [Error] ([Unknown error] for any other
    value) and frees the lock, even one a pending question holds, without
    touching the timer.  If [URL.createObjectURL] threw, preview and
    progress are as before; if [xhr.open] or [xhr.send] threw in a
    connected upload, the preview is already set and the progress already
    0, and no request is in flight. *)
Theorem uploadImage_throws
    (file : File) (url : string) (e : Thrown) (sent : option Thrown)
    (now : string) (s : State) :
  let text := "Error uploading image: " +:+ match e with
                                            | ErrorObject m => m
                                            | OtherValue => "Unknown error"
                                            end in
  let s' := uploadImage file (inl e) sent now s in
  (messages s' = messages s ++ [mkMessage text ai now]
   /\ isProcessing s' = false
   /\ imageUrl s' = imageUrl s
   /\ uploadProgress s' = uploadProgress s
   /\ responseTimeoutRef s' = responseTimeoutRef s
   /\ timers s' = timers s
   /\ effects s' = effects s ++ [ConsoleError])
  /\ (isConnected s = true ->
      let s'' := uploadImage file (inr url) (Some e) now s in
      messages s'' = messages s ++ [mkMessage text ai now]
      /\ isProcessing s'' = false
      /\ imageUrl s'' = url
      /\ uploadProgress s'' = Fin 0
      /\ responseTimeoutRef s'' = responseTimeoutRef s
      /\ timers s'' = timers s
      /\ xhrs s'' = xhrs s
      /\ effects s'' = effects s ++ [CreateObjectURL url; ConsoleError]).
Proof.
  cbv zeta. split; [repeat split|].
  intros Hc. unfold uploadImage, uploadImage_catch, URL_createObjectURL, addMessage.
  simpl. rewrite Hc. simpl. rewrite <- app_assoc. repeat split.
Qed.

(** After a connected upload fails at the network level the preview
    stays in place, so the session still accepts a question: it takes
    the lock and emits [message], although the server never received the
    image. *)
Theorem question_after_failed_upload
    (file : File) (url now t content t1 t2 : string) (s : State) :
  reachable s -> isConnected s = true -> url <> "" ->
  let s1 := step (Upload file (inr url) None now) s in
  let s2 := step (XhrFailed t) s1 in
  let s3 := step (Ask content t1 t2) s2 in
  imageUrl s2 = url
  /\ isProcessing s2 = false
  /\ isProcessing s3 = true
  /\ In (Emit "message" (MessagePayload content (localStorage s !! current_image_path)))
        (effects s3).
Proof.
  intros Hr Hc Hu. cbv zeta.
  assert (R2 : reachable (step (XhrFailed t) (step (Upload file (inr url) None now) s)))
    by (apply reachable_step, reachable_step, Hr).
  destruct (uploadImage_connected file url now s Hc)
    as (M1 & L1 & U1 & P1 & E1 & K1 & X1 & R1 & T1).
  change (step (Upload file (inr url) None now) s)
    with (uploadImage file (inr url) None now s) in *.
  set (s1 := uploadImage file (inr url) None now s) in *.
  assert (S2 : step (XhrFailed t) s1 = xhr_error t (finish_xhr s1)).
  { simpl. unfold in_flight. rewrite X1. reflexivity. }
  rewrite S2 in *. set (s2 := xhr_error t (finish_xhr s1)) in *.
  assert (U2 : imageUrl s2 = url) by exact U1.
  assert (C2 : isConnected s2 = true).
  { subst s2 s1. unfold uploadImage, URL_createObjectURL. simpl. rewrite Hc. exact Hc. }
  assert (L2 : localStorage s2 = localStorage s).
  { subst s2 s1. unfold uploadImage, URL_createObjectURL. simpl. rewrite Hc. reflexivity. }
  assert (Hu2 : imageUrl s2 <> "") by (rewrite U2; exact Hu).
  destruct (sendMessage_connected content t1 t2 s2 (reachable_wf _ R2) Hu2 C2)
    as (_ & L3 & _ & _ & E3 & _).
  change (step (Ask content t1 t2) s2) with (sendMessage content t1 t2 s2).
  repeat split; try assumption.
  rewrite E3, L2. apply in_or_app. right. apply in_or_app. right. right. left. reflexivity.
Qed.

(** A disconnect while the HTTP leg is in flight frees the lock; the
    [load] listener of the accepted upload still runs afterwards, emits
    [analyze_image] although the page is disconnected, and does not take
    the lock back. *)
Theorem load_after_disconnect
    (file : File) (url now : string) (status : Z) (r : UploadResponse)
    (md : Metadata) (fi : FileInfo) (t : string) (s : State) :
  reachable s -> isConnected s = true -> 200 <= status < 300 ->
  success r = true -> metadata r = Some md -> file_info md = Some fi ->
  let s1 := step (Upload file (inr url) None now) s in
  let s2 := step Disconnect s1 in
  let s3 := step (XhrLoad status (JsonText r) t) s2 in
  isProcessing s1 = true
  /\ isProcessing s2 = false
  /\ isConnected s3 = false
  /\ isProcessing s3 = false
  /\ messages s3 = messages s
  /\ effects s3 = effects s2 ++ [Emit "analyze_image" (AnalyzePayload (file_path fi))].
Proof.
  intros Hr Hc Hs Hok Hmd Hfi. pose proof (reachable_wf _ Hr) as W.
  destruct (wf_connected _ W Hc) as [k Hk].
  assert (B : (200 <=? status) && (status <? 300) = true)
    by (apply andb_true_intro; split; [apply Z.leb_le | apply Z.ltb_lt]; lia).
  cbv zeta. simpl. unfold subscribed, in_flight, uploadImage, URL_createObjectURL,
    on_disconnect, cancel_response_timeout, xhr_load, sendToSocket, finish_xhr.
  cbv zeta. simpl. rewrite Hc. simpl. rewrite Hk. simpl.
  destruct (responseTimeoutRef s); simpl; rewrite B, Hok, Hmd, Hfi; simpl;
    repeat split.
Qed.

End UploadOutcomes.

Lemma upload_failure_releases_lock_witness :
  let s := run Scenario.uploading Scenario.fresh in
  let text := JsonText (mkResponse false None (Some "")) in
  let s1 := xhr_load 413 text "09:00:01" s in
  messages s1 = messages s ++ [mkMessage "Error uploading image: Upload failed" ai "09:00:01"]
  /\ isProcessing s1 = false.
Proof.
  intros s text.
  assert (Hs : ~ (200 <= 413 < 300)) by lia.
  assert (Ht : text <> NotJson) by discriminate.
  destruct (upload_failure_releases_lock 413 text "09:00:01" s Hs Ht)
    as ((H1 & H2 & _) & _).
  split; [exact H1 | exact H2].
Defined.

Lemma xhr_load_unparseable_witness :
  let s := run Scenario.uploading Scenario.fresh in
  let s1 := xhr_load 502 NotJson "09:00:02" s in
  let s2 := xhr_load 204 EmptyText "09:00:02" s in
  (messages s1 = messages s /\ isProcessing s1 = isProcessing s
   /\ responseTimeoutRef s1 = responseTimeoutRef s
   /\ effects s1 = effects s ++ [Uncaught])
  /\ (messages s2 = messages s /\ isProcessing s2 = isProcessing s
      /\ responseTimeoutRef s2 = responseTimeoutRef s
      /\ effects s2 = effects s ++ [Uncaught]).
Proof.
  intros s. apply (xhr_load_unparseable 502 204 "09:00:02" s). lia.
Defined.

Lemma uploadImage_disconnected_witness :
  let s := run [Mount] Scenario.fresh in
  let s' := uploadImage Scenario.photo (inr "blob:1") None "09:00:00" s in
  imageUrl s' = "blob:1"
  /\ uploadProgress s' = Fin 0
  /\ messages s' = messages s ++ [mkMessage no_socket_text ai "09:00:00"]
  /\ isProcessing s' = isProcessing s
  /\ effects s' = effects s ++ [CreateObjectURL "blob:1"]
  /\ xhrs s' = xhrs s
  /\ responseTimeoutRef s' = responseTimeoutRef s.
Proof.
  intros s.
  apply (uploadImage_disconnected Scenario.photo "blob:1" None "09:00:00" s).
  reflexivity.
Defined.

Lemma uploadImage_throws_witness :
  let s := run Scenario.asked Scenario.fresh in
  let e := ErrorObject "Failed to execute 'open'" in
  let s'' := uploadImage Scenario.photo (inr "blob:2") (Some e) "09:01:30" s in
  messages s'' = messages s
                 ++ [mkMessage "Error uploading image: Failed to execute 'open'" ai "09:01:30"]
  /\ isProcessing s'' = false
  /\ imageUrl s'' = "blob:2"
  /\ uploadProgress s'' = Fin 0
  /\ responseTimeoutRef s'' = responseTimeoutRef s
  /\ timers s'' = timers s
  /\ xhrs s'' = xhrs s
  /\ effects s'' = effects s ++ [CreateObjectURL "blob:2"; ConsoleError].
Proof.
  intros s e.
  apply (proj2 (uploadImage_throws Scenario.photo "blob:2" e None "09:01:30" s)).
  reflexivity.
Defined.

Lemma question_after_failed_upload_witness :
  let s := run [Mount; Connect "sid1"] Scenario.fresh in
  let s1 := step (Upload Scenario.photo (inr "blob:1") None "09:00:00") s in
  let s2 := step (XhrFailed "09:00:02") s1 in
  let s3 := step (Ask "what is this?" "09:01:00" "09:01:00") s2 in
  imageUrl s2 = "blob:1"
  /\ isProcessing s2 = false
  /\ isProcessing s3 = true
  /\ In (Emit "message"
           (MessagePayload "what is this?" (localStorage s !! current_image_path)))
        (effects s3).
Proof.
  intros s.
  apply (question_after_failed_upload Scenario.photo "blob:1" "09:00:00" "09:00:02"
           "what is this?" "09:01:00" "09:01:00" s).
  - apply reachable_run.
  - reflexivity.
  - discriminate.
Defined.

Lemma load_after_disconnect_witness :
  let s := run [Mount; Connect "sid1"] Scenario.fresh in
  let fi := mkFileInfo (Some "/tmp/x.jpg") in
  let r := mkResponse true (Some (mkMetadata (Some fi))) None in
  let s1 := step (Upload Scenario.photo (inr "blob:1") None "09:00:00") s in
  let s2 := step Disconnect s1 in
  let s3 := step (XhrLoad 200 (JsonText r) "09:00:03") s2 in
  isProcessing s1 = true
  /\ isProcessing s2 = false
  /\ isConnected s3 = false
  /\ isProcessing s3 = false
  /\ messages s3 = messages s
  /\ effects s3 = effects s2 ++ [Emit "analyze_image" (AnalyzePayload (Some "/tmp/x.jpg"))].
Proof.
  intros s fi r.
  apply (load_after_disconnect Scenario.photo "blob:1" "09:00:00" 200 r
           (mkMetadata (Some fi)) fi "09:00:03" s).
  - apply reachable_run.
  - reflexivity.
  - lia.
  - reflexivity.
  - reflexivity.
  - reflexivity.
Defined.

(** ** What the handlers leave alone *)

Section Frame.

(** The preview changes only in [uploadImage] and [clearImage]; nothing
    but the three socket listeners of [SocketProvider] (and its mount)
    changes [isConnected] or the socket; and [uploadProgress] changes only
    in [uploadImage], a progress notification and [metadata_result]. *)
Theorem step_frame (e : Event) (s : State) :
  match e with
  | Upload _ _ _ _ | Clear => True
  | _ => imageUrl (step e s) = imageUrl s
  end
  /\ match e with
     | Mount | Connect _ | Disconnect | ConnectError => True
     | _ => isConnected (step e s) = isConnected s /\ socket (step e s) = socket s
     end
  /\ match e with
     | Upload _ _ _ _ | XhrProgress _ | MetadataResult _ _ => True
     | _ => uploadProgress (step e s) = uploadProgress s
     end.
Proof.
  destruct e; open_step; repeat split; try assumption;
    destruct (isConnected s); simpl in *; congruence.
Qed.

Lemma count_effects_snoc (p : Effect -> bool) (l : list Effect) (x : Effect) :
  count_effects p (l ++ [x]) = (count_effects p l + if p x then 1 else 0)%nat.
Proof.
  unfold count_effects. rewrite List.filter_app, length_app. simpl.
  destruct (p x); reflexivity.
Qed.

Lemma step_preview_urls (e : Event) (s : State) :
  length (objectUrls s) = count_effects is_create (effects s) ->
  count_effects is_revoke (effects s) = 0%nat ->
  length (objectUrls (step e s)) = count_effects is_create (effects (step e s))
  /\ count_effects is_revoke (effects (step e s)) = 0%nat.
Proof.
  intros H1 H2. destruct e; open_step;
    rewrite ?count_effects_snoc, ?length_app; simpl; split; lia.
Qed.

(** The page never calls [URL.revokeObjectURL]: in every reachable state
    each preview URL it created is still registered. *)
Theorem preview_urls_never_revoked (s : State) :
  reachable s ->
  length (objectUrls s) = count_effects is_create (effects s)
  /\ count_effects is_revoke (effects s) = 0%nat.
Proof.
  revert s. apply reachable_ind.
  - intros store backend. split; reflexivity.
  - intros e s _ [H1 H2]. apply step_preview_urls; assumption.
Qed.

(** After [clearImage] a question is ignored: [sendMessage] returns at
    its first line, so nothing is appended, locked or emitted until the
    next upload. *)
Theorem sendMessage_after_clearImage (content now now' : string) (s : State) :
  step (Ask content now now') (step Clear s) = step Clear s.
Proof.
  simpl. unfold sendMessage. 
  replace (imageUrl (clearImage s)) with "".
  - reflexivity.
  - unfold clearImage, sendToSocket. cbv zeta. simpl.
    destruct (isConnected s); [destruct (socket s)|]; reflexivity.
Qed.

End Frame.

Lemma preview_urls_never_revoked_witness :
  let s := run (Scenario.asked ++ [Clear; Upload Scenario.photo (inr "blob:2") None "09:05:00"])
             Scenario.fresh in
  length (objectUrls s) = count_effects is_create (effects s)
  /\ count_effects is_revoke (effects s) = 0%nat.
Proof.
  intros s. apply (preview_urls_never_revoked s). apply reachable_run.
Defined.

(** ** File names and sizes *)

Section Validation.

Import ImageUtils.

Lemma extension_body_dot (r t : string) :
  extension_body (r +:+ String "."%char t) = false.
Proof.
  induction r as [|c r IH]; simpl.
  - destruct t; reflexivity.
  - rewrite IH. destruct (r +:+ String "."%char t) eqn:E.
    + destruct r; discriminate E.
    + apply andb_false_r.
Qed.

(** Stripping undoes the appending of an extension: for any base name
    and any non-empty extension free of [.] and [/], the result for
    [base.ext] is [base].  Only the last extension goes ([a.tar.gz] gives
    [a.tar]), and a name that is nothing but an extension, such as
    [.bashrc], gives the empty string. *)
Theorem getFilenameWithoutExtension_strips (base ext : string) :
  extension_body ext = true ->
  getFilenameWithoutExtension (base +:+ String "."%char ext) = base.
Proof.
  intros He. induction base as [|c b IH].
  - simpl. rewrite He. reflexivity.
  - change (String c b +:+ String "."%char ext)
      with (String c (b +:+ String "."%char ext)).
    cbn [getFilenameWithoutExtension extension_at].
    rewrite extension_body_dot, andb_false_r. rewrite IH. reflexivity.
Qed.

(** The result is always the name with a suffix cut off, and the suffix
    is either empty or one whole match of the pattern: nothing inside the
    name is touched, and a name that does not end in [.ext] (no dot, a
    slash after the last dot, or a dot at the very end) comes back
    unchanged. *)
Theorem getFilenameWithoutExtension_prefix (filename : string) :
  exists suffix,
    filename = getFilenameWithoutExtension filename +:+ suffix
    /\ (suffix = "" \/ extension_at suffix = true).
Proof.
  induction filename as [|c r IH].
  - exists "". split; [reflexivity | left; reflexivity].
  - cbn [getFilenameWithoutExtension].
    destruct (extension_at (String c r)) eqn:E.
    + exists (String c r). split; [reflexivity | right; exact E].
    + destruct IH as (suffix & Heq & Hs). exists suffix. split; [|exact Hs].
      change (String c (getFilenameWithoutExtension r) +:+ suffix)
        with (String c (getFilenameWithoutExtension r +:+ suffix)).
      rewrite <- Heq. reflexivity.
Qed.

(** With a whole number of megabytes as the limit, a file passes exactly
    when its size is at most that many times 1048576 bytes, the bound
    included; without a limit given the bound is 5242880 bytes. *)
Theorem isValidImageSize_bound (file : File) (m : Z) :
  (isValidImageSize file (Some (inject_Z m)) = true
   <-> Z.of_N (file_size file) <= m * 1048576)
  /\ (isValidImageSize file None = true <-> (file_size file <= 5242880)%N).
Proof.
  unfold isValidImageSize. cbv zeta. rewrite !Qle_bool_iff.
  unfold Qle, Qmult, inject_Z. simpl. split; split; intros H; lia.
Qed.

End Validation.

Lemma isValidImageSize_bound_witness :
  ImageUtils.isValidImageSize (mkFile "x.jpg" 5242880 "image/jpeg") None = true
  /\ ImageUtils.isValidImageSize (mkFile "x.jpg" 2097152 "image/jpeg") (Some (inject_Z 2)) = true.
Proof.
  split.
  - apply (proj2 (isValidImageSize_bound (mkFile "x.jpg" 5242880 "image/jpeg") 5)).
    vm_compute. discriminate.
  - apply (proj1 (isValidImageSize_bound (mkFile "x.jpg" 2097152 "image/jpeg") 2)).
    vm_compute. discriminate.
Defined.

Lemma getFilenameWithoutExtension_strips_witness :
  ImageUtils.getFilenameWithoutExtension "holiday.2024.jpeg" = "holiday.2024"
  /\ ImageUtils.getFilenameWithoutExtension ".bashrc" = "".
Proof.
  split.
  - apply (getFilenameWithoutExtension_strips "holiday.2024" "jpeg"). reflexivity.
  - apply (getFilenameWithoutExtension_strips "" "bashrc"). reflexivity.
Defined.

(** ** Submitting the form *)

Section Submit.

Import MessageInput.

Variable trim : string -> string.

(** Whenever the send button is enabled, submitting the form empties the
    text field and appends the user's message with the text exactly as
    typed, not trimmed. *)
Theorem handleSubmit_enabled (input now now' : string) (s : State) :
  button_disabled trim input s = false ->
  fst (handleSubmit trim input now now' s) = ""
  /\ exists l, messages (snd (handleSubmit trim input now now' s))
               = messages s ++ mkMessage input user now :: l.
Proof.
  unfold button_disabled, handleSubmit. intros H.
  apply orb_false_elim in H as [H Hp]. apply orb_false_elim in H as [Ht Hu].
  apply negb_false_iff in Ht, Hu. rewrite Ht, Hp. simpl. split; [reflexivity|].
  unfold sendMessage. rewrite Hu. simpl.
  destruct (isConnected s); simpl.
  - exists []. unfold sendToSocket.
    destruct (responseTimeoutRef s); simpl; destruct (socket s); reflexivity.
  - eexists [_]. rewrite <- app_assoc. reflexivity.
Qed.

(** A question submitted while connected takes the lock, so a second
    submission made before the answer is refused by the form itself: the
    session does not change and the typed text stays in the field. *)
Theorem handleSubmit_single_flight
    (input input2 now now' t t' : string) (s : State) :
  reachable s -> isConnected s = true -> imageUrl s <> "" ->
  isProcessing s = false -> trim input <> "" ->
  let s1 := snd (handleSubmit trim input now now' s) in
  isProcessing s1 = true
  /\ input_disabled s1 = true
  /\ handleSubmit trim input2 t t' s1 = (input2, s1).
Proof.
  intros Hr Hc Hu Hp Ht. cbv zeta.
  assert (E1 : handleSubmit trim input now now' s = ("", sendMessage input now now' s)).
  { unfold handleSubmit. rewrite Hp.
    destruct (trim input); [congruence | reflexivity]. }
  rewrite E1. cbn [snd].
  destruct (sendMessage_connected input now now' s (reachable_wf _ Hr) Hu Hc)
    as (_ & L1 & _).
  unfold input_disabled, handleSubmit. rewrite L1.
  rewrite orb_true_r, andb_false_r. repeat split.
Qed.

End Submit.

Lemma handleSubmit_enabled_witness :
  let s := run Scenario.analysed Scenario.fresh in
  fst (MessageInput.handleSubmit (fun x => x) " what is this? " "09:01:00" "09:01:00" s) = ""
  /\ exists l, messages (snd (MessageInput.handleSubmit (fun x => x) " what is this? "
                                "09:01:00" "09:01:00" s))
               = messages s ++ mkMessage " what is this? " user "09:01:00" :: l.
Proof.
  intros s.
  apply (handleSubmit_enabled (fun x => x) " what is this? " "09:01:00" "09:01:00" s).
  vm_compute. reflexivity.
Defined.

Lemma handleSubmit_single_flight_witness :
  let s := run Scenario.analysed Scenario.fresh in
  let s1 := snd (MessageInput.handleSubmit (fun x => x) "what is this?"
                   "09:01:00" "09:01:00" s) in
  isProcessing s1 = true
  /\ MessageInput.input_disabled s1 = true
  /\ MessageInput.handleSubmit (fun x => x) "and this?" "09:01:01" "09:01:01" s1
     = ("and this?", s1).
Proof.
  intros s.
  apply (handleSubmit_single_flight (fun x => x) "what is this?" "and this?"
           "09:01:00" "09:01:00" "09:01:01" "09:01:01" s).
  - apply reachable_run.
  - reflexivity.
  - vm_compute. discriminate.
  - reflexivity.
  - discriminate.
Defined.

(** ** Sending over the socket *)

Section Send.

(** [sendToSocket] guards the emit with [socket?.]; while the page
    believes it is connected the guard never drops an event, because
    [isConnected] is only ever set by a listener of an existing socket.
    Before the socket exists the call does nothing at all. *)
Theorem sendToSocket_connected (event : string) (data : Payload) (s : State) :
  reachable s ->
  (isConnected s = true -> effects (sendToSocket event data s) = effects s ++ [Emit event data])
  /\ (socket s = None -> isConnected s = false /\ sendToSocket event data s = s).
Proof.
  intros Hr. pose proof (reachable_wf _ Hr) as W. unfold sendToSocket. split.
  - intros Hc. destruct (wf_connected _ W Hc) as [k ->]. reflexivity.
  - intros Hk. rewrite Hk. split; [|reflexivity].
    destruct (isConnected s) eqn:Ec; [|reflexivity].
    destruct (wf_connected _ W Ec) as [k Hk']. congruence.
Qed.

End Send.

Lemma sendToSocket_connected_witness :
  let s := run [Mount; Connect "sid1"] Scenario.fresh in
  effects (sendToSocket "clear_image" EmptyPayload s)
  = effects s ++ [Emit "clear_image" EmptyPayload].
Proof.
  intros s.
  apply (proj1 (sendToSocket_connected "clear_image" EmptyPayload s (reachable_run _))).
  reflexivity.
Defined.
